(** * Fallen Knight: the player state machine and the scene manager

    A shallow embedding of [src/models/entities/player.py] and
    [src/controllers/scene_manager.py], followed by the properties of the
    specification that concern them.

    Conventions of the embedding.
    - Python [int] is [Z]; Python [float] is idealised as an exact rational
      [Q] (no rounding, no infinities); [bool] is [bool].
    - A method [def m(self, a)] becomes a function [m a p] returning the
      receiver after the call (and the returned value, when there is one).
    - Classes that this repository imports but that are not part of the
      checked sources ([Character], [AnimationSet], the scene classes, the
      constants module) appear as an interface (a type class) or as a
      definition marked "Modelled from the spec". *)

From Stdlib Require Import ZArith QArith Qround Lia Lqa Ascii.
From stdpp Require Import base option list gmap strings sorting.

Local Open Scope Z_scope.

(** ** Enumerations of [player.py] *)

Module PlayerState.
Inductive t : Set :=
| IDLE | WALK | RUN
| ATTACK_LIGHT_1 | ATTACK_LIGHT_2 | ATTACK_HEAVY
| BLOCK | HURT | DEATH.

#[global] Instance eq_dec : EqDecision t.
Proof. solve_decision. Defined.
End PlayerState.

Module PlayerAction.
Inductive t : Set :=
| MOVE_LEFT | MOVE_RIGHT | JUMP | SPRINT | BLOCK
| ATTACK_LIGHT | ATTACK_HEAVY.

#[global] Instance eq_dec : EqDecision t.
Proof. solve_decision. Defined.
End PlayerAction.

(** The states in which [_update_state_machine] waits for the animation. *)
Definition non_interruptible (s : PlayerState.t) : Prop :=
  s ∈ [PlayerState.ATTACK_LIGHT_1; PlayerState.ATTACK_LIGHT_2;
       PlayerState.ATTACK_HEAVY; PlayerState.HURT].

(** The three attack states. *)
Definition attacking (s : PlayerState.t) : Prop :=
  s ∈ [PlayerState.ATTACK_LIGHT_1; PlayerState.ATTACK_LIGHT_2;
       PlayerState.ATTACK_HEAVY].

(** The states from which [_can_attack] lets an attack start. *)
Definition locomotion (s : PlayerState.t) : Prop :=
  s ∈ [PlayerState.IDLE; PlayerState.WALK; PlayerState.RUN].

(** ** What [player.py] imports *)

(** The names imported from [src.core.constants].  The module is not among
    the checked sources, so its values are parameters of the development. *)
Class Constants : Type := {
  DOUBLE_CLICK_THRESHOLD_MS : Z;
  GRAVITY : Q;
  JUMP_SPEED : Q;
  MAX_FALL_SPEED : Q;
  BASE_MOVEMENT_SPEED : Q;
  SPRINT_MULTIPLIER : Q;
  BLOCK_DAMAGE_REDUCTION : Q;
  MAX_MANA : Z;
  INVULNERABILITY_DURATION : Q
}.

(** The methods of [AnimationSet] that the player calls.  [A] is the state
    of an animation set, [Frame] what [get_current_frame] hands back. *)
Class AnimationSetOps (A Frame : Type) : Type := {
  set_state : PlayerState.t -> A -> A;
  is_finished : A -> bool;
  anim_update : Q -> A -> A;
  get_current_frame : bool -> A -> Frame
}.

(** [pygame.math.Vector2] *)
Record Vector2 : Set := mkVector2 { vx : Q; vy : Q }.

Definition with_x (x : Q) (v : Vector2) : Vector2 := {| vx := x; vy := vy v |}.
Definition with_y (y : Q) (v : Vector2) : Vector2 := {| vx := vx v; vy := y |}.

(** Comparisons of floats, as booleans. *)
Definition Qltb (a b : Q) : bool := negb (Qle_bool b a).

(** Python's [int(x)] on a float: truncation towards zero. *)
Definition py_int (q : Q) : Z := Z.quot (Qnum q) (Z.pos (Qden q)).

(** [random.choice(seq)], given the index drawn by the generator. *)
Definition random_choice {X : Type} (draw : nat) (seq : list X) : option X :=
  seq !! (draw mod length seq)%nat.

(** ** The player object

    The attributes of a [Player] instance: those it inherits from
    [Character] (a [pygame] sprite) come first, its own follow.  [in_groups]
    is the sprite's membership of its groups, which [kill()] ends. *)
Record Player (A Frame : Type) : Type := mkPlayer {
  position : Vector2;
  velocity : Vector2;
  acceleration : Vector2;
  health : Z;
  on_ground : bool;
  facing_left : bool;
  _invulnerable : bool;
  _invulnerable_timer : Q;
  in_groups : bool;
  image : Frame;
  _mana : Z;
  _max_mana : Z;
  _coins : Z;
  _move_direction : Z;
  _is_sprinting : bool;
  _jump_requested : bool;
  _is_blocking : bool;
  _last_right_click_time : Z;
  _current_state : PlayerState.t;
  _animations : A
}.

Arguments mkPlayer {A Frame}.
Arguments position {A Frame} _.
Arguments velocity {A Frame} _.
Arguments acceleration {A Frame} _.
Arguments health {A Frame} _.
Arguments on_ground {A Frame} _.
Arguments facing_left {A Frame} _.
Arguments _invulnerable {A Frame} _.
Arguments _invulnerable_timer {A Frame} _.
Arguments in_groups {A Frame} _.
Arguments image {A Frame} _.
Arguments _mana {A Frame} _.
Arguments _max_mana {A Frame} _.
Arguments _coins {A Frame} _.
Arguments _move_direction {A Frame} _.
Arguments _is_sprinting {A Frame} _.
Arguments _jump_requested {A Frame} _.
Arguments _is_blocking {A Frame} _.
Arguments _last_right_click_time {A Frame} _.
Arguments _current_state {A Frame} _.
Arguments _animations {A Frame} _.

Section PlayerModel.
Context {A Frame : Type} `{!AnimationSetOps A Frame} `{!Constants}.

(** *** Attribute assignment *)

Definition set_velocity (v : Vector2) (p : Player A Frame) : Player A Frame :=
  {| position := position p; velocity := v; acceleration := acceleration p;
     health := health p; on_ground := on_ground p; facing_left := facing_left p;
     _invulnerable := _invulnerable p; _invulnerable_timer := _invulnerable_timer p;
     in_groups := in_groups p; image := image p; _mana := _mana p;
     _max_mana := _max_mana p; _coins := _coins p;
     _move_direction := _move_direction p; _is_sprinting := _is_sprinting p;
     _jump_requested := _jump_requested p; _is_blocking := _is_blocking p;
     _last_right_click_time := _last_right_click_time p;
     _current_state := _current_state p; _animations := _animations p |}.

Definition set_acceleration (v : Vector2) (p : Player A Frame) : Player A Frame :=
  {| position := position p; velocity := velocity p; acceleration := v;
     health := health p; on_ground := on_ground p; facing_left := facing_left p;
     _invulnerable := _invulnerable p; _invulnerable_timer := _invulnerable_timer p;
     in_groups := in_groups p; image := image p; _mana := _mana p;
     _max_mana := _max_mana p; _coins := _coins p;
     _move_direction := _move_direction p; _is_sprinting := _is_sprinting p;
     _jump_requested := _jump_requested p; _is_blocking := _is_blocking p;
     _last_right_click_time := _last_right_click_time p;
     _current_state := _current_state p; _animations := _animations p |}.

Definition set_health (v : Z) (p : Player A Frame) : Player A Frame :=
  {| position := position p; velocity := velocity p; acceleration := acceleration p;
     health := v; on_ground := on_ground p; facing_left := facing_left p;
     _invulnerable := _invulnerable p; _invulnerable_timer := _invulnerable_timer p;
     in_groups := in_groups p; image := image p; _mana := _mana p;
     _max_mana := _max_mana p; _coins := _coins p;
     _move_direction := _move_direction p; _is_sprinting := _is_sprinting p;
     _jump_requested := _jump_requested p; _is_blocking := _is_blocking p;
     _last_right_click_time := _last_right_click_time p;
     _current_state := _current_state p; _animations := _animations p |}.

Definition set_on_ground (v : bool) (p : Player A Frame) : Player A Frame :=
  {| position := position p; velocity := velocity p; acceleration := acceleration p;
     health := health p; on_ground := v; facing_left := facing_left p;
     _invulnerable := _invulnerable p; _invulnerable_timer := _invulnerable_timer p;
     in_groups := in_groups p; image := image p; _mana := _mana p;
     _max_mana := _max_mana p; _coins := _coins p;
     _move_direction := _move_direction p; _is_sprinting := _is_sprinting p;
     _jump_requested := _jump_requested p; _is_blocking := _is_blocking p;
     _last_right_click_time := _last_right_click_time p;
     _current_state := _current_state p; _animations := _animations p |}.

Definition set_facing_left (v : bool) (p : Player A Frame) : Player A Frame :=
  {| position := position p; velocity := velocity p; acceleration := acceleration p;
     health := health p; on_ground := on_ground p; facing_left := v;
     _invulnerable := _invulnerable p; _invulnerable_timer := _invulnerable_timer p;
     in_groups := in_groups p; image := image p; _mana := _mana p;
     _max_mana := _max_mana p; _coins := _coins p;
     _move_direction := _move_direction p; _is_sprinting := _is_sprinting p;
     _jump_requested := _jump_requested p; _is_blocking := _is_blocking p;
     _last_right_click_time := _last_right_click_time p;
     _current_state := _current_state p; _animations := _animations p |}.

Definition set_invulnerable (v : bool) (p : Player A Frame) : Player A Frame :=
  {| position := position p; velocity := velocity p; acceleration := acceleration p;
     health := health p; on_ground := on_ground p; facing_left := facing_left p;
     _invulnerable := v; _invulnerable_timer := _invulnerable_timer p;
     in_groups := in_groups p; image := image p; _mana := _mana p;
     _max_mana := _max_mana p; _coins := _coins p;
     _move_direction := _move_direction p; _is_sprinting := _is_sprinting p;
     _jump_requested := _jump_requested p; _is_blocking := _is_blocking p;
     _last_right_click_time := _last_right_click_time p;
     _current_state := _current_state p; _animations := _animations p |}.

Definition set_invulnerable_timer (v : Q) (p : Player A Frame) : Player A Frame :=
  {| position := position p; velocity := velocity p; acceleration := acceleration p;
     health := health p; on_ground := on_ground p; facing_left := facing_left p;
     _invulnerable := _invulnerable p; _invulnerable_timer := v;
     in_groups := in_groups p; image := image p; _mana := _mana p;
     _max_mana := _max_mana p; _coins := _coins p;
     _move_direction := _move_direction p; _is_sprinting := _is_sprinting p;
     _jump_requested := _jump_requested p; _is_blocking := _is_blocking p;
     _last_right_click_time := _last_right_click_time p;
     _current_state := _current_state p; _animations := _animations p |}.

Definition set_in_groups (v : bool) (p : Player A Frame) : Player A Frame :=
  {| position := position p; velocity := velocity p; acceleration := acceleration p;
     health := health p; on_ground := on_ground p; facing_left := facing_left p;
     _invulnerable := _invulnerable p; _invulnerable_timer := _invulnerable_timer p;
     in_groups := v; image := image p; _mana := _mana p; _max_mana := _max_mana p;
     _coins := _coins p; _move_direction := _move_direction p;
     _is_sprinting := _is_sprinting p; _jump_requested := _jump_requested p;
     _is_blocking := _is_blocking p;
     _last_right_click_time := _last_right_click_time p;
     _current_state := _current_state p; _animations := _animations p |}.

Definition set_image (v : Frame) (p : Player A Frame) : Player A Frame :=
  {| position := position p; velocity := velocity p; acceleration := acceleration p;
     health := health p; on_ground := on_ground p; facing_left := facing_left p;
     _invulnerable := _invulnerable p; _invulnerable_timer := _invulnerable_timer p;
     in_groups := in_groups p; image := v; _mana := _mana p; _max_mana := _max_mana p;
     _coins := _coins p; _move_direction := _move_direction p;
     _is_sprinting := _is_sprinting p; _jump_requested := _jump_requested p;
     _is_blocking := _is_blocking p;
     _last_right_click_time := _last_right_click_time p;
     _current_state := _current_state p; _animations := _animations p |}.

Definition set_move_direction (v : Z) (p : Player A Frame) : Player A Frame :=
  {| position := position p; velocity := velocity p; acceleration := acceleration p;
     health := health p; on_ground := on_ground p; facing_left := facing_left p;
     _invulnerable := _invulnerable p; _invulnerable_timer := _invulnerable_timer p;
     in_groups := in_groups p; image := image p; _mana := _mana p;
     _max_mana := _max_mana p; _coins := _coins p; _move_direction := v;
     _is_sprinting := _is_sprinting p; _jump_requested := _jump_requested p;
     _is_blocking := _is_blocking p;
     _last_right_click_time := _last_right_click_time p;
     _current_state := _current_state p; _animations := _animations p |}.

Definition set_is_sprinting (v : bool) (p : Player A Frame) : Player A Frame :=
  {| position := position p; velocity := velocity p; acceleration := acceleration p;
     health := health p; on_ground := on_ground p; facing_left := facing_left p;
     _invulnerable := _invulnerable p; _invulnerable_timer := _invulnerable_timer p;
     in_groups := in_groups p; image := image p; _mana := _mana p;
     _max_mana := _max_mana p; _coins := _coins p;
     _move_direction := _move_direction p; _is_sprinting := v;
     _jump_requested := _jump_requested p; _is_blocking := _is_blocking p;
     _last_right_click_time := _last_right_click_time p;
     _current_state := _current_state p; _animations := _animations p |}.

Definition set_jump_requested (v : bool) (p : Player A Frame) : Player A Frame :=
  {| position := position p; velocity := velocity p; acceleration := acceleration p;
     health := health p; on_ground := on_ground p; facing_left := facing_left p;
     _invulnerable := _invulnerable p; _invulnerable_timer := _invulnerable_timer p;
     in_groups := in_groups p; image := image p; _mana := _mana p;
     _max_mana := _max_mana p; _coins := _coins p;
     _move_direction := _move_direction p; _is_sprinting := _is_sprinting p;
     _jump_requested := v; _is_blocking := _is_blocking p;
     _last_right_click_time := _last_right_click_time p;
     _current_state := _current_state p; _animations := _animations p |}.

Definition set_is_blocking (v : bool) (p : Player A Frame) : Player A Frame :=
  {| position := position p; velocity := velocity p; acceleration := acceleration p;
     health := health p; on_ground := on_ground p; facing_left := facing_left p;
     _invulnerable := _invulnerable p; _invulnerable_timer := _invulnerable_timer p;
     in_groups := in_groups p; image := image p; _mana := _mana p;
     _max_mana := _max_mana p; _coins := _coins p;
     _move_direction := _move_direction p; _is_sprinting := _is_sprinting p;
     _jump_requested := _jump_requested p; _is_blocking := v;
     _last_right_click_time := _last_right_click_time p;
     _current_state := _current_state p; _animations := _animations p |}.

Definition set_last_right_click_time (v : Z) (p : Player A Frame) : Player A Frame :=
  {| position := position p; velocity := velocity p; acceleration := acceleration p;
     health := health p; on_ground := on_ground p; facing_left := facing_left p;
     _invulnerable := _invulnerable p; _invulnerable_timer := _invulnerable_timer p;
     in_groups := in_groups p; image := image p; _mana := _mana p;
     _max_mana := _max_mana p; _coins := _coins p;
     _move_direction := _move_direction p; _is_sprinting := _is_sprinting p;
     _jump_requested := _jump_requested p; _is_blocking := _is_blocking p;
     _last_right_click_time := v; _current_state := _current_state p;
     _animations := _animations p |}.

Definition set_current_state (v : PlayerState.t) (p : Player A Frame) : Player A Frame :=
  {| position := position p; velocity := velocity p; acceleration := acceleration p;
     health := health p; on_ground := on_ground p; facing_left := facing_left p;
     _invulnerable := _invulnerable p; _invulnerable_timer := _invulnerable_timer p;
     in_groups := in_groups p; image := image p; _mana := _mana p;
     _max_mana := _max_mana p; _coins := _coins p;
     _move_direction := _move_direction p; _is_sprinting := _is_sprinting p;
     _jump_requested := _jump_requested p; _is_blocking := _is_blocking p;
     _last_right_click_time := _last_right_click_time p; _current_state := v;
     _animations := _animations p |}.

Definition set_animations (v : A) (p : Player A Frame) : Player A Frame :=
  {| position := position p; velocity := velocity p; acceleration := acceleration p;
     health := health p; on_ground := on_ground p; facing_left := facing_left p;
     _invulnerable := _invulnerable p; _invulnerable_timer := _invulnerable_timer p;
     in_groups := in_groups p; image := image p; _mana := _mana p;
     _max_mana := _max_mana p; _coins := _coins p;
     _move_direction := _move_direction p; _is_sprinting := _is_sprinting p;
     _jump_requested := _jump_requested p; _is_blocking := _is_blocking p;
     _last_right_click_time := _last_right_click_time p;
     _current_state := _current_state p; _animations := v |}.

(** *** [Character], the base class *)

(** Modelled from the spec: the [Character.is_alive] property is not among
    the checked sources.  Section 3: isAlive is derived, health > 0. *)
Definition is_alive (p : Player A Frame) : bool := 0 <? health p.

(** Modelled from the spec: [Character.take_damage] is not among the
    checked sources.  Section 4.2: if invulnerable, no-op returning false;
    otherwise health -= amount floored at 0; when health becomes 0 the
    on-death hook runs once and the call returns true; when health stays
    positive the character becomes invulnerable for a fixed duration and
    the call returns true.  A dead character no longer accepts damage. *)
Definition Character_take_damage (_on_death : Player A Frame -> Player A Frame)
    (amount : Z) (p : Player A Frame) : Player A Frame * bool :=
  if _invulnerable p || negb (is_alive p) then (p, false)
  else
    let p := set_health (Z.max 0 (health p - amount)) p in
    if health p =? 0 then (_on_death p, true)
    else (set_invulnerable_timer INVULNERABILITY_DURATION
            (set_invulnerable true p), true).

(** *** Private methods of [Player] *)

Definition _can_attack (p : Player A Frame) : bool :=
  bool_decide (_current_state p ∈
    [PlayerState.IDLE; PlayerState.WALK; PlayerState.RUN]).

Definition _enter_state (new_state : PlayerState.t) (p : Player A Frame)
    : Player A Frame :=
  if decide (_current_state p = new_state) then p
  else
    let p := set_current_state new_state p in
    set_animations (set_state new_state (_animations p)) p.

(** [self.kill()], the [pygame] sprite method. *)
Definition kill (p : Player A Frame) : Player A Frame := set_in_groups false p.

Definition _update_state_machine (p : Player A Frame) : Player A Frame :=
  if bool_decide (_current_state p ∈
       [PlayerState.ATTACK_LIGHT_1; PlayerState.ATTACK_LIGHT_2;
        PlayerState.ATTACK_HEAVY; PlayerState.HURT])
  then
    if is_finished (_animations p) then _enter_state PlayerState.IDLE p
    else p
  else if decide (_current_state p = PlayerState.DEATH) then
    if is_finished (_animations p) then kill p else p
  else if decide (_current_state p = PlayerState.BLOCK) then p
  else
    let desired_state :=
      if decide (_move_direction p ≠ 0) then
        (if _is_sprinting p then PlayerState.RUN else PlayerState.WALK)
      else PlayerState.IDLE in
    _enter_state desired_state p.

(** *** Construction *)

(** [Player.__init__].  The part done by [Character.__init__] is modelled
    from the spec (section 3 lists the attributes): a new character is at
    rest, airborne until the scene's physics grounds it, faces right, is
    vulnerable and belongs to its groups. *)
Definition new_player (x y : Q) (health0 : Z) (animations : A) : Player A Frame :=
  let animations := set_state PlayerState.IDLE animations in
  {| position := mkVector2 x y;
     velocity := mkVector2 0 0;
     acceleration := mkVector2 0 0;
     health := health0;
     on_ground := false;
     facing_left := false;
     _invulnerable := false;
     _invulnerable_timer := 0%Q;
     in_groups := true;
     image := get_current_frame false animations;
     _mana := MAX_MANA;
     _max_mana := MAX_MANA;
     _coins := 0;
     _move_direction := 0;
     _is_sprinting := false;
     _jump_requested := false;
     _is_blocking := false;
     _last_right_click_time := 0;
     _current_state := PlayerState.IDLE;
     _animations := animations |}.

(** *** Input handling *)

Definition handle_action (action : PlayerAction.t) (pressed : bool)
    (p : Player A Frame) : Player A Frame :=
  if decide (action = PlayerAction.MOVE_LEFT) then
    set_move_direction
      (if pressed then -1
       else if decide (_move_direction p ≠ -1) then _move_direction p else 0) p
  else if decide (action = PlayerAction.MOVE_RIGHT) then
    set_move_direction
      (if pressed then 1
       else if decide (_move_direction p ≠ 1) then _move_direction p else 0) p
  else if bool_decide (action = PlayerAction.JUMP) && pressed
          && negb (_is_blocking p) && on_ground p then
    set_jump_requested true p
  else if decide (action = PlayerAction.SPRINT) then
    set_is_sprinting pressed p
  else if decide (action = PlayerAction.BLOCK) then
    let p := set_is_blocking pressed p in
    if pressed then
      _enter_state PlayerState.BLOCK (set_jump_requested false p)
    else if decide (_current_state p = PlayerState.BLOCK) then
      _enter_state PlayerState.IDLE p
    else p
  else if decide (action = PlayerAction.ATTACK_LIGHT) then
    set_is_blocking pressed p
  else if decide (action = PlayerAction.ATTACK_HEAVY) then
    set_is_blocking pressed p
  else p.

(** [draw] is the index that [random.choice] draws on this call. *)
Definition handle_mouse_click (button : Z) (current_time : Z) (draw : nat)
    (p : Player A Frame) : Player A Frame :=
  if negb (_can_attack p) then p
  else if button =? 1 then
    match random_choice draw
            [PlayerState.ATTACK_LIGHT_1; PlayerState.ATTACK_LIGHT_2] with
    | Some state => _enter_state state p
    | None => p
    end
  else if button =? 3 then
    if current_time - _last_right_click_time p <=? DOUBLE_CLICK_THRESHOLD_MS then
      set_last_right_click_time 0 (_enter_state PlayerState.ATTACK_HEAVY p)
    else set_last_right_click_time current_time p
  else p.

(** *** Overridden methods *)

Definition _on_death (p : Player A Frame) : Player A Frame :=
  _enter_state PlayerState.DEATH p.

(** The amount that [take_damage] hands to [super().take_damage]. *)
Definition damage_after_block (amount : Z) (p : Player A Frame) : Z :=
  if _is_blocking p then
    Z.max 1 (py_int (inject_Z amount * BLOCK_DAMAGE_REDUCTION))
  else amount.

(** The rest of [take_damage]: the call of the base routine and the
    transition to HURT. *)
Definition apply_damage (amount : Z) (p : Player A Frame) : Player A Frame * bool :=
  let '(p, hit) := Character_take_damage _on_death amount p in
  if hit then ((if is_alive p then _enter_state PlayerState.HURT p else p), true)
  else (p, false).

Definition take_damage (amount : Z) (p : Player A Frame) : Player A Frame * bool :=
  apply_damage (damage_after_block amount p) p.

Definition _update_character (delta_time : Q) (p : Player A Frame)
    : Player A Frame :=
  (* Handle jump *)
  let p :=
    if _jump_requested p && on_ground p && negb (_is_blocking p) then
      set_jump_requested false
        (set_on_ground false
           (set_velocity (with_y (JUMP_SPEED * 60) (velocity p)) p))
    else p in
  (* Apply gravity *)
  let p :=
    if negb (on_ground p) then
      set_acceleration (with_y (GRAVITY * 60 * 60) (acceleration p)) p
    else
      set_velocity (with_y 0 (velocity p))
        (set_acceleration (with_y 0 (acceleration p)) p) in
  (* Handle horizontal movement *)
  let speed :=
    (BASE_MOVEMENT_SPEED * (if _is_sprinting p then SPRINT_MULTIPLIER else 1))%Q in
  let p :=
    set_velocity (with_x (inject_Z (_move_direction p) * speed * 60) (velocity p)) p in
  let p := set_acceleration (with_x 0 (acceleration p)) p in
  (* Update facing direction *)
  let p :=
    if _move_direction p <? 0 then set_facing_left true p
    else if 0 <? _move_direction p then set_facing_left false p
    else p in
  let p := _update_state_machine p in
  let p := set_animations (anim_update delta_time (_animations p)) p in
  set_image (get_current_frame (facing_left p) (_animations p)) p.

Definition update (delta_time : Q) (p : Player A Frame) : Player A Frame :=
  let p :=
    if _invulnerable p && Qltb 0 (_invulnerable_timer p) then
      let p := set_invulnerable_timer (_invulnerable_timer p - delta_time) p in
      if Qle_bool (_invulnerable_timer p) 0 then
        set_invulnerable_timer 0 (set_invulnerable false p)
      else p
    else p in
  _update_character delta_time p.

(** *** Resource management *)

Definition set_coins (v : Z) (p : Player A Frame) : Player A Frame :=
  {| position := position p; velocity := velocity p; acceleration := acceleration p;
     health := health p; on_ground := on_ground p; facing_left := facing_left p;
     _invulnerable := _invulnerable p; _invulnerable_timer := _invulnerable_timer p;
     in_groups := in_groups p; image := image p; _mana := _mana p;
     _max_mana := _max_mana p; _coins := v; _move_direction := _move_direction p;
     _is_sprinting := _is_sprinting p; _jump_requested := _jump_requested p;
     _is_blocking := _is_blocking p; _last_right_click_time := _last_right_click_time p;
     _current_state := _current_state p; _animations := _animations p |}.

Definition set_mana (v : Z) (p : Player A Frame) : Player A Frame :=
  {| position := position p; velocity := velocity p; acceleration := acceleration p;
     health := health p; on_ground := on_ground p; facing_left := facing_left p;
     _invulnerable := _invulnerable p; _invulnerable_timer := _invulnerable_timer p;
     in_groups := in_groups p; image := image p; _mana := v; _max_mana := _max_mana p;
     _coins := _coins p; _move_direction := _move_direction p;
     _is_sprinting := _is_sprinting p; _jump_requested := _jump_requested p;
     _is_blocking := _is_blocking p; _last_right_click_time := _last_right_click_time p;
     _current_state := _current_state p; _animations := _animations p |}.

Definition add_coins (amount : Z) (p : Player A Frame) : Player A Frame :=
  set_coins (Z.max 0 (_coins p + amount)) p.

Definition spend_coins (amount : Z) (p : Player A Frame) : Player A Frame * bool :=
  if amount <=? _coins p then (set_coins (_coins p - amount) p, true)
  else (p, false).

Definition add_mana (amount : Z) (p : Player A Frame) : Player A Frame :=
  set_mana (Z.min (_max_mana p) (_mana p + amount)) p.

Definition use_mana (amount : Z) (p : Player A Frame) : Player A Frame * bool :=
  if amount <=? _mana p then (set_mana (_mana p - amount) p, true)
  else (p, false).

(** The [mana_percentage] property; [/] on two ints is true division. *)
Definition mana_percentage (p : Player A Frame) : Q :=
  if 0 <? _max_mana p then (inject_Z (_mana p) / inject_Z (_max_mana p))%Q
  else 0%Q.

(** *** A frame of play

    What reaches a player between construction and removal: the input
    handlers, damage, the per-frame [update], and the game scene's physics,
    which owns [on_ground] (the scene is not among the checked sources; only
    its effect on the flag that the player reads is kept). *)
Inductive Event : Type :=
| Action (action : PlayerAction.t) (pressed : bool)
| Click (button : Z) (current_time : Z) (draw : nat)
| Damage (amount : Z)
| Update (delta_time : Q)
| Physics (grounded : bool).

Definition step (e : Event) (p : Player A Frame) : Player A Frame :=
  match e with
  | Action action pressed => handle_action action pressed p
  | Click button current_time draw => handle_mouse_click button current_time draw p
  | Damage amount => fst (take_damage amount p)
  | Update delta_time => update delta_time p
  | Physics grounded => set_on_ground grounded p
  end.

Definition play (events : list Event) (p : Player A Frame) : Player A Frame :=
  foldl (fun p e => step e p) p events.

(** The guard of the jump branch of [_update_character]. *)
Definition jump_fires (p : Player A Frame) : bool :=
  _jump_requested p && on_ground p && negb (_is_blocking p).

(** Does this event make the player jump? *)
Definition jumps_on (e : Event) (p : Player A Frame) : bool :=
  match e with
  | Update _ => jump_fires p
  | _ => false
  end.

(** Does this event start a heavy attack? *)
Definition heavy_on (e : Event) (p : Player A Frame) : bool :=
  bool_decide (_current_state p ≠ PlayerState.ATTACK_HEAVY)
  && bool_decide (_current_state (step e p) = PlayerState.ATTACK_HEAVY).

Fixpoint count_on (f : Event -> Player A Frame -> bool) (events : list Event)
    (p : Player A Frame) : nat :=
  match events with
  | [] => 0
  | e :: events => ((if f e p then 1 else 0) + count_on f events (step e p))%nat
  end.

Definition is_jump_press (e : Event) : bool :=
  match e with
  | Action PlayerAction.JUMP true => true
  | _ => false
  end.

End PlayerModel.

(** *** Loading the frames of an animation *)

(** What [_load_animation_frames] puts in its list: the scaled image of a
    file, or the magenta placeholder. *)
Inductive Surface : Set :=
| scaled_frame (image_path : string)
| placeholder.

(** [sorted(...)] on paths of one folder: by name. *)
Definition path_le (a b : string * bool) : Prop := String.leb a.1 b.1 = true.

#[global] Instance path_le_dec : RelDecision path_le.
Proof. intros a b. unfold path_le. apply _. Defined.

(** [_load_animation_frames].  [folder] is [None] when the folder does not
    exist; otherwise it lists the files that match "*.png", each with whether
    loading and scaling it succeeds ([false] is a [pg.error]). *)
Definition _load_animation_frames (folder : option (list (string * bool)))
    : list Surface :=
  match folder with
  | None => [placeholder]
  | Some files =>
      let frames :=
        foldl (fun (frames : list Surface) (image : string * bool) =>
                 if image.2 then frames ++ [scaled_frame image.1] else frames)
              [] (merge_sort path_le files) in
      match frames with
      | [] => frames ++ [placeholder]
      | _ => frames
      end
  end.

(** ** A concrete animation set and concrete constants

    Used to run the model on examples. *)

Module SpecAnimation.

(** Modelled from the spec: [src/models/animation.py] is not among the
    checked sources.  Section 4.1: [advance] accumulates elapsed time and,
    once a frame duration has passed, moves on by floor(elapsed /
    frameDuration) frames, wrapping when looping and clamping at the last
    frame otherwise; [isFinished] holds only for a non-looping animation
    whose index is the last frame. *)
Record Animation : Set := mkAnimation {
  frames : nat;
  fps : Q;
  loop : bool;
  index : nat;
  elapsed : Q
}.

Definition frame_duration (a : Animation) : Q := (1 / fps a)%Q.

Definition last_index (a : Animation) : nat := (frames a - 1)%nat.

Definition advance (delta_time : Q) (a : Animation) : Animation :=
  let elapsed := (elapsed a + delta_time)%Q in
  if Qle_bool (frame_duration a) elapsed then
    let steps := Z.to_nat (Qfloor (elapsed / frame_duration a)) in
    let target := (index a + steps)%nat in
    {| frames := frames a; fps := fps a; loop := loop a;
       index := if loop a then (target mod frames a)%nat
                else Nat.min target (last_index a);
       elapsed := (elapsed - inject_Z (Z.of_nat steps) * frame_duration a)%Q |}
  else
    {| frames := frames a; fps := fps a; loop := loop a;
       index := index a; elapsed := elapsed |}.

Definition reset (a : Animation) : Animation :=
  {| frames := frames a; fps := fps a; loop := loop a; index := 0%nat; elapsed := 0%Q |}.

Definition finished (a : Animation) : bool :=
  negb (loop a) && (index a =? last_index a)%nat.

(** Modelled from the spec: [AnimationSet] is not among the checked
    sources.  Section 4.1: [setState(s)] is a no-op if [s] is already
    active, otherwise it makes the animation bound to [s] active and resets
    its index and elapsed time to zero. *)
Record AnimationSet : Set := mkAnimationSet {
  bound : PlayerState.t -> Animation;
  active : PlayerState.t
}.

Definition on_active (f : Animation -> Animation) (s : AnimationSet) : AnimationSet :=
  {| bound := fun k => if decide (k = active s) then f (bound s k) else bound s k;
     active := active s |}.

Definition switch (new_state : PlayerState.t) (s : AnimationSet) : AnimationSet :=
  if decide (active s = new_state) then s
  else on_active reset {| bound := bound s; active := new_state |}.

(** A frame: which animation, which index, mirrored or not. *)
Definition Frame : Set := (PlayerState.t * nat * bool)%type.

Definition ops : AnimationSetOps AnimationSet Frame := {|
  set_state := switch;
  is_finished := fun s => finished (bound s (active s));
  anim_update := fun delta_time => on_active (advance delta_time);
  get_current_frame := fun flip_x s => (active s, index (bound s (active s)), flip_x)
|}.

(** The table of [_load_animations]: looping for IDLE, WALK, RUN and BLOCK,
    one-shot for the attacks, HURT and DEATH; four frames at ten frames a
    second stand for the assets. *)
Definition loaded : AnimationSet :=
  {| bound := fun k =>
       {| frames := 4; fps := 10; index := 0; elapsed := 0;
          loop := bool_decide (k ∈ [PlayerState.IDLE; PlayerState.WALK;
                                    PlayerState.RUN; PlayerState.BLOCK]) |};
     active := PlayerState.IDLE |}.

End SpecAnimation.

(** Modelled from the spec: the values of [src.core.constants], which is
    not among the checked sources.  The specification gives 400 ms as the
    double-click window; the other values are representative. *)
Definition spec_constants : Constants := {|
  DOUBLE_CLICK_THRESHOLD_MS := 400;
  GRAVITY := 8 # 10;
  JUMP_SPEED := - (15 # 1);
  MAX_FALL_SPEED := 20;
  BASE_MOVEMENT_SPEED := 5;
  SPRINT_MULTIPLIER := 3 # 2;
  BLOCK_DAMAGE_REDUCTION := 1 # 2;
  MAX_MANA := 100;
  INVULNERABILITY_DURATION := 1
|}.

(** A player as the game scene makes it, and the same player standing on
    the ground. *)
Definition fresh_player : Player SpecAnimation.AnimationSet SpecAnimation.Frame :=
  @new_player _ _ SpecAnimation.ops spec_constants 100 300 100 SpecAnimation.loaded.

Definition grounded_player : Player SpecAnimation.AnimationSet SpecAnimation.Frame :=
  set_on_ground true fresh_player.

(** * The scene manager, [scene_manager.py] *)

(** ** Exceptions *)

(** The exception classes that the module names, and one for all the
    others.  [SceneError] carries its message. *)
Inductive Exn : Set :=
| IOError
| ValueError
| SceneError (message : string)
| OtherError.

(** A computation that returns or raises. *)
Inductive Result (X : Type) : Type :=
| Ok (x : X)
| Raise (e : Exn).

Arguments Ok {X} x.
Arguments Raise {X} e.

(** Sequencing: an exception raised by the first part ends the whole. *)
#[global] Instance Result_bind : MBind Result := fun X Y k r =>
  match r with
  | Ok x => k x
  | Raise e => Raise e
  end.

(** [try: body except (IOError, ValueError): handler] *)
Definition try_except_io_value {X : Type} (body : Result X) (handler : Result X)
    : Result X :=
  match body with
  | Raise IOError | Raise ValueError => handler
  | other => other
  end.

(** ** Built-ins and the world outside *)

(** Python's [float(s)] and [int(s)] on a string: the value, or [None] where
    Python raises [ValueError]. *)
Class PyBuiltins : Type := {
  pyfloat : Type;
  parse_float : string -> option pyfloat;
  parse_int : string -> option Z
}.

Definition or_value_error {X : Type} (o : option X) : Result X :=
  match o with
  | Some x => Ok x
  | None => Raise ValueError
  end.

(** The save file as [_load_saved_game] can find it: absent, present but
    failing on [open] or [read] with an [OSError], failing in decoding (a
    [UnicodeDecodeError], which is a [ValueError]), or readable. *)
Inductive SaveFile : Set :=
| Missing
| Unreadable
| Undecodable
| Content (text : string).

(** White space as [str.split()] sees it, within ASCII. *)
Definition is_whitespace (c : ascii) : bool :=
  let n := nat_of_ascii c in
  ((9 <=? n) && (n <=? 13) || (28 <=? n) && (n <=? 32))%nat.

(** [s.split()]: the maximal runs of characters that are not white space. *)
Fixpoint split_from (word : string) (s : string) : list string :=
  match s with
  | EmptyString => if decide (word = EmptyString) then [] else [word]
  | String c rest =>
      if is_whitespace c then
        (if decide (word = EmptyString) then split_from EmptyString rest
         else word :: split_from EmptyString rest)
      else split_from (word +:+ String c EmptyString) rest
  end.

Definition py_split (s : string) : list string := split_from EmptyString s.

Fixpoint lstrip (s : string) : string :=
  match s with
  | String c rest => if is_whitespace c then lstrip rest else s
  | EmptyString => EmptyString
  end.

(** [s.strip()] *)
Definition py_strip (s : string) : string :=
  String.rev (lstrip (String.rev (lstrip s))).

(** ** Scenes *)

(** The four scene classes that the module imports. *)
Inductive SceneClass : Set := MenuScene | SettingsScene | GameScene | DialogScene.

Section SceneManagerModel.
Context `{!PyBuiltins}.

(** [(x, y, health)] *)
Definition SavedData : Type := (pyfloat * pyfloat * Z)%type.

(** The arguments that [_create_scene] passes next to the configuration. *)
Inductive Arguments_ : Type :=
| game_arguments (level_id : string) (saved_data : option SavedData)
| dialog_arguments (dialog_id : string) (next_scene : string)
| no_arguments.

(** A scene object is known by its class and the arguments it was made
    with; the scene classes themselves are not among the checked sources. *)
Record Scene : Type := mkScene {
  scene_class : SceneClass;
  scene_arguments : Arguments_
}.

(** The keyword arguments of [_create_scene]: absent, or present with a
    value ([saved_data] may be present with the value [None]). *)
Record Kwargs : Type := mkKwargs {
  kw_level_id : option string;
  kw_saved_data : option (option SavedData);
  kw_dialog_id : option string;
  kw_next_scene : option string
}.

Definition no_kwargs : Kwargs :=
  {| kw_level_id := None; kw_saved_data := None;
     kw_dialog_id := None; kw_next_scene := None |}.

(** What a constructor of a scene class does: [construction_error] is the
    text of the exception it raises, if it raises one. *)
Class SceneClasses : Type := {
  construction_error : SceneClass -> Arguments_ -> option string
}.

Context `{!SceneClasses}.

(** ** The manager *)

Record SceneManager : Type := mkSceneManager {
  _scene_cache : gmap string (option Scene);
  _scene_classes : gmap string SceneClass;
  _current_level : string;
  _saved_data : option SavedData;
  config_saves : nat
}.

Definition set_scene_cache (v : gmap string (option Scene)) (m : SceneManager)
    : SceneManager :=
  {| _scene_cache := v; _scene_classes := _scene_classes m;
     _current_level := _current_level m; _saved_data := _saved_data m;
     config_saves := config_saves m |}.

Definition set_current_level (v : string) (m : SceneManager) : SceneManager :=
  {| _scene_cache := _scene_cache m; _scene_classes := _scene_classes m;
     _current_level := v; _saved_data := _saved_data m;
     config_saves := config_saves m |}.

Definition set_saved_data (v : option SavedData) (m : SceneManager) : SceneManager :=
  {| _scene_cache := _scene_cache m; _scene_classes := _scene_classes m;
     _current_level := _current_level m; _saved_data := v;
     config_saves := config_saves m |}.

Definition set_config_saves (v : nat) (m : SceneManager) : SceneManager :=
  {| _scene_cache := _scene_cache m; _scene_classes := _scene_classes m;
     _current_level := _current_level m; _saved_data := _saved_data m;
     config_saves := v |}.

(** The scene registry of [__init__]. *)
Definition scene_registry : gmap string SceneClass :=
  <["menu" := MenuScene]> (<["settings" := SettingsScene]>
    (<["game" := GameScene]> (<["dialog" := DialogScene]> ∅))).

(** [SceneManager.__init__] *)
Definition new_scene_manager : SceneManager :=
  {| _scene_cache := ∅;
     _scene_classes := scene_registry;
     _current_level := "tutorial";
     _saved_data := None;
     config_saves := 0 |}.

(** [scene_class(self._config, ...)] inside the [try] of [_create_scene]:
    any exception of the constructor becomes a [SceneError]. *)
Definition instantiate (scene_id : string) (scene_class : SceneClass)
    (arguments : Arguments_) : Result (option Scene) :=
  match construction_error scene_class arguments with
  | Some e => Raise (SceneError ("Failed to create scene " +:+ scene_id +:+ ": " +:+ e))
  | None => Ok (Some (mkScene scene_class arguments))
  end.

Definition _create_scene (scene_id : string) (kwargs : Kwargs) (m : SceneManager)
    : Result (option Scene) :=
  match _scene_classes m !! scene_id with
  | None => Ok None
  | Some scene_class =>
      if decide (scene_id = "game") then
        instantiate scene_id scene_class
          (game_arguments (default (_current_level m) (kw_level_id kwargs))
                          (default None (kw_saved_data kwargs)))
      else if decide (scene_id = "dialog") then
        instantiate scene_id scene_class
          (dialog_arguments (default "test" (kw_dialog_id kwargs))
                            (default "menu" (kw_next_scene kwargs)))
      else instantiate scene_id scene_class no_arguments
  end.

(** The body of the [try] in [_load_saved_game]. *)
Definition read_saved_game (file : SaveFile) (m : SceneManager) : Result SceneManager :=
  match file with
  | Missing => Ok m
  | Unreadable => Raise IOError
  | Undecodable => Raise ValueError
  | Content text =>
      let data := py_split (py_strip text) in
      if (3 <=? length data)%nat then
        x ← or_value_error (data !! 0%nat ≫= parse_float) ;
        y ← or_value_error (data !! 1%nat ≫= parse_float) ;
        health ← or_value_error (data !! 2%nat ≫= parse_int) ;
        let m := set_saved_data (Some (x, y, health)) m in
        if (4 <=? length data)%nat then
          Ok (set_current_level (default EmptyString (data !! 3%nat)) m)
        else Ok m
      else Ok m
  end.

Definition _load_saved_game (file : SaveFile) (m : SceneManager) : Result SceneManager :=
  try_except_io_value (read_saved_game file m) (Ok (set_saved_data None m)).

Definition game_kwargs (m : SceneManager) : Kwargs :=
  {| kw_level_id := Some (_current_level m);
     kw_saved_data := Some (_saved_data m);
     kw_dialog_id := None; kw_next_scene := None |}.

(** [_get_scene]: the manager after the call and the scene returned. *)
Definition _get_scene (file : SaveFile) (scene_id : string) (m : SceneManager)
    : Result (SceneManager * option Scene) :=
  if decide (scene_id = "new_game") then
    let m := set_saved_data None m in
    let m := set_current_level "tutorial" m in
    scene ← _create_scene "dialog"
              {| kw_level_id := None; kw_saved_data := None;
                 kw_dialog_id := Some "introduction";
                 kw_next_scene := Some "game" |} m ;
    Ok (m, scene)
  else if decide (scene_id = "continue") then
    m ← _load_saved_game file m ;
    scene ← _create_scene "game" (game_kwargs m) m ;
    Ok (m, scene)
  else if decide (scene_id = "game") then
    scene ← _create_scene "game" (game_kwargs m) m ;
    Ok (m, scene)
  else if decide (scene_id ∈ ["menu"; "settings"]) then
    m ← (match _scene_cache m !! scene_id with
         | Some _ => Ok m
         | None =>
             scene ← _create_scene scene_id no_kwargs m ;
             Ok (set_scene_cache (<[scene_id := scene]> (_scene_cache m)) m)
         end) ;
    Ok (m, default None (_scene_cache m !! scene_id))
  else
    scene ← _create_scene scene_id no_kwargs m ;
    Ok (m, scene).

(** The table of [_handle_transition]. *)
Definition transition_map : gmap string (option string) :=
  <["exit" := None]> (<["menu" := Some "menu"]> (<["settings" := Some "settings"]>
    (<["back" := Some "menu"]> (<["new_game" := Some "new_game"]>
      (<["continue" := Some "continue"]> (<["game" := Some "game"]>
        (<["game_over" := Some "menu"]> (<["level_complete" := Some "menu"]> ∅)))))))).

Definition _handle_transition (from_scene : string) (to_scene : option string)
    : option string :=
  match to_scene with
  | None => None
  | Some to_scene =>
      if decide (to_scene = EmptyString) then None
      else default (Some to_scene) (transition_map !! to_scene)
  end.

Definition _cleanup (m : SceneManager) : SceneManager :=
  set_config_saves (S (config_saves m)) (set_scene_cache ∅ m).

(** How a call of [run] ends: it returns, it raises, or it is still inside
    a scene when the supply of scene results has been used up. *)
Inductive Outcome : Type :=
| Returned (m : SceneManager)
| Raised (e : Exn)
| InScene (scene_id : string) (m : SceneManager).

(** The [while] loop of [run].  Each scene that is run hands back a token;
    [results] lists, in order, the token of each scene run together with the
    save file as that scene leaves it.  [file] is the save file as the next
    [_get_scene] finds it. *)
Fixpoint run_loop (results : list (option string * SaveFile)) (file : SaveFile)
    (m : SceneManager) (current_scene_id : option string) : Outcome :=
  match current_scene_id with
  | None => Returned (_cleanup m)
  | Some scene_id =>
      if decide (scene_id = EmptyString) then Returned (_cleanup m)
      else if decide (scene_id = "exit") then Returned (_cleanup m)
      else
        match _get_scene file scene_id m with
        | Raise e => Raised e
        | Ok (m, None) => Raised (SceneError ("Unknown scene: " +:+ scene_id))
        | Ok (m, Some scene) =>
            match results with
            | [] => InScene scene_id m
            | (next_scene_id, file) :: results =>
                run_loop results file m (_handle_transition scene_id next_scene_id)
            end
        end
  end.

Definition run (results : list (option string * SaveFile)) (file : SaveFile)
    : Outcome :=
  run_loop results file new_scene_manager (Some "menu").

(** The ids that [_get_scene] treats specially. *)
Definition special_ids : list string := ["new_game"; "continue"; "game"].

End SceneManagerModel.

(** * The entry point, [main.py] *)

(** The calls that [main] makes before it runs the scene manager: for each,
    the exception that it raises, if it raises one. *)
Record Startup : Set := mkStartup {
  pg_init : option Exn;
  pg_mixer_init : option Exn;
  Config_new : option Exn;
  create_display : option Exn
}.

(** What [main] prints. *)
Inductive Line : Set :=
| game_error_line (e : Exn)
| unexpected_error_line (e : Exn)
| traceback_lines (e : Exn).

(** What is left when [main] has returned: the lines printed, the number of
    calls of [config.save()], and whether [pg.quit()] was called. *)
Record Exit : Set := mkExit {
  printed : list Line;
  config_saved : nat;
  pg_quit_called : bool
}.

Section MainModel.
Context `{!PyBuiltins} `{!SceneClasses}.

(** A call that returns nothing of interest. *)
Definition call (raises : option Exn) : Result unit :=
  match raises with
  | Some e => Raise e
  | None => Ok tt
  end.

(** The body of the [try].  The first component tells whether the name
    [config] is bound when the body is left; the second is [None] when the
    scene manager is still inside a scene, and otherwise how the body ends,
    with the number of saves that [run] has made. *)
Definition main_body (startup : Startup) (results : list (option string * SaveFile))
    (file : SaveFile) : bool * option (Result nat) :=
  match call (pg_init startup) with
  | Raise e => (false, Some (Raise e))
  | Ok _ =>
      match call (pg_mixer_init startup) with
      | Raise e => (false, Some (Raise e))
      | Ok _ =>
          match call (Config_new startup) with
          | Raise e => (false, Some (Raise e))
          | Ok _ =>
              match call (create_display startup) with
              | Raise e => (true, Some (Raise e))
              | Ok _ =>
                  match run results file with
                  | Returned m => (true, Some (Ok (config_saves m)))
                  | Raised e => (true, Some (Raise e))
                  | InScene _ _ => (true, None)
                  end
              end
          end
      end
  end.

(** [main].  [is_game_error] tells the exceptions that are instances of
    [GameError]; that class is not among the checked sources.  The result is
    [None] when the supply of scene results ends with the game still inside
    a scene. *)
Definition main (is_game_error : Exn -> bool) (startup : Startup)
    (results : list (option string * SaveFile)) (file : SaveFile) : option Exit :=
  let '(config_bound, body) := main_body startup results file in
  body_end ← body;
  let '(lines, saves) :=
    match body_end with
    | Ok saves => ([], saves)
    | Raise e =>
        if is_game_error e then ([game_error_line e], 0%nat)
        else ([unexpected_error_line e; traceback_lines e], 0%nat)
    end in
  (* finally *)
  let saves := if config_bound then S saves else saves in
  Some {| printed := lines; config_saved := saves; pg_quit_called := true |}.

End MainModel.

(** ** Concrete built-ins, scene classes and a first save file

    Used to run the model on examples.  The two parsers accept plain
    decimal literals, on which they agree with [float] and [int]; they say
    nothing about the other spellings that Python accepts. *)

Module Decimal.

Definition digit (c : ascii) : option Z :=
  let n := nat_of_ascii c in
  if ((48 <=? n) && (n <=? 57))%nat then Some (Z.of_nat n - 48) else None.

(** The value of a run of digits that follows digits already worth [acc]. *)
Fixpoint digits (acc : Z) (s : string) : option Z :=
  match s with
  | EmptyString => Some acc
  | String c rest => d ← digit c; digits (10 * acc + d) rest
  end.

Definition unsigned (s : string) : option Z :=
  if decide (s = EmptyString) then None else digits 0 s.

Definition signed {X : Type} (magnitude : string -> option X) (negate : X -> X)
    (s : string) : option X :=
  match s with
  | String "-" rest => negate <$> magnitude rest
  | String "+" rest => magnitude rest
  | _ => magnitude s
  end.

(** Cut a string at its first full stop. *)
Fixpoint cut_at_point (s : string) : string * option string :=
  match s with
  | EmptyString => (EmptyString, None)
  | String "." rest => (EmptyString, Some rest)
  | String c rest =>
      let '(whole, fraction) := cut_at_point rest in (String c whole, fraction)
  end.

(** Digits on one side of the point at least: "12.5", "12." and ".5", but
    not ".". *)
Definition unsigned_float (s : string) : option Q :=
  match cut_at_point s with
  | (whole, None) => inject_Z <$> unsigned whole
  | (whole, Some fraction) =>
      if decide (whole = EmptyString /\ fraction = EmptyString) then None
      else
        w ← digits 0 whole;
        f ← digits 0 fraction;
        Some (Qmake (w * 10 ^ Z.of_nat (String.length fraction) + f)
                    (Z.to_pos (10 ^ Z.of_nat (String.length fraction))))
  end.

Definition builtins : PyBuiltins := {|
  pyfloat := Q;
  parse_float := signed unsigned_float Qopp;
  parse_int := signed unsigned Z.opp
|}.

(** Scene classes whose constructors never raise. *)
Definition scene_classes : @SceneClasses builtins := {|
  construction_error := fun _ _ => None
|}.

End Decimal.

(** Players and managers for the examples. *)
Section Concrete.
#[local] Existing Instance SpecAnimation.ops.
#[local] Existing Instance spec_constants.
#[local] Existing Instance Decimal.builtins.
#[local] Existing Instance Decimal.scene_classes.

(** In ATTACK_LIGHT_1, the animation just started. *)
Definition attacking_player : Player SpecAnimation.AnimationSet SpecAnimation.Frame :=
  step (Click 1 1000 0) grounded_player.

(** In ATTACK_LIGHT_1, the animation played to its last frame. *)
Definition spent_attack_player : Player SpecAnimation.AnimationSet SpecAnimation.Frame :=
  step (Update 1) attacking_player.

(** Holding BLOCK and a direction key. *)
Definition blocking_player : Player SpecAnimation.AnimationSet SpecAnimation.Frame :=
  play [Action PlayerAction.BLOCK true; Action PlayerAction.MOVE_RIGHT true]
    grounded_player.

(** A save file as the game writes it, and the manager that has loaded it. *)
Definition saved_game : SaveFile := Content "12.5 40.0 80 cave".

Definition loaded_manager : SceneManager :=
  set_current_level "cave"
    (set_saved_data (Some (12.5%Q, 40.0%Q, 80)) new_scene_manager).

(** The manager after the first visit of the menu. *)
Definition menu_visited : SceneManager :=
  set_scene_cache (<["menu" := Some (mkScene MenuScene no_arguments)]> ∅)
    new_scene_manager.

End Concrete.

(** * Properties of the player *)

Section PlayerProperties.
Context {A Frame : Type} `{!AnimationSetOps A Frame} `{!Constants}.
Implicit Types p : Player A Frame.

(** ** Helper lemmas *)

(** Case analysis on a condition that has no conditional inside it. *)
Ltac case_simple_if :=
  match goal with
  | |- context [if ?c then _ else _] =>
      lazymatch c with
      | context [if _ then _ else _] => fail
      | _ => destruct c eqn:?
      end
  end.

Lemma py_int_nonneg (q : Q) : 0 <= Qnum q -> py_int q = Qfloor q.
Proof.
  intros Hq. destruct q as [n d]; unfold py_int, Qfloor; simpl in *.
  apply Z.quot_div_nonneg; lia.
Qed.

Lemma py_int_neg (q : Q) : Qnum q < 0 -> py_int q <= 0 /\ Qfloor q < 0.
Proof.
  intros Hq. destruct q as [n d]; unfold py_int, Qfloor; simpl in *. split.
  - rewrite <- (Z.opp_involutive n), Z.quot_opp_l by lia.
    pose proof (Z.quot_pos (- n) (Z.pos d)). lia.
  - apply Z.div_lt_upper_bound; lia.
Qed.

(** Under [max(1, _)], truncation and floor cannot be told apart. *)
Lemma max_1_py_int (q : Q) : Z.max 1 (py_int q) = Z.max 1 (Qfloor q).
Proof.
  destruct (Z_lt_le_dec (Qnum q) 0) as [Hn | Hn].
  - destruct (py_int_neg q Hn). lia.
  - now rewrite py_int_nonneg.
Qed.

Lemma _can_attack_spec p :
  _can_attack p = true <->
  _current_state p = PlayerState.IDLE \/ _current_state p = PlayerState.WALK
  \/ _current_state p = PlayerState.RUN.
Proof.
  unfold _can_attack. rewrite bool_decide_eq_true.
  rewrite !elem_of_cons, elem_of_nil. tauto.
Qed.

Lemma _enter_state_current new_state p :
  _current_state (_enter_state new_state p) = new_state.
Proof. unfold _enter_state. destruct (decide _) as [-> | _]; reflexivity. Qed.

Lemma attacking_non_interruptible s : attacking s -> non_interruptible s.
Proof.
  unfold attacking, non_interruptible. rewrite !elem_of_cons, !elem_of_nil. tauto.
Qed.

Lemma non_interruptible_cannot_attack p :
  non_interruptible (_current_state p) -> _can_attack p = false.
Proof.
  unfold non_interruptible. rewrite !elem_of_cons, elem_of_nil.
  intros Hs. apply not_true_is_false. rewrite _can_attack_spec.
  intuition congruence.
Qed.

(** *** What the state machine does, case by case *)

Lemma _update_state_machine_unfinished p :
  non_interruptible (_current_state p) ->
  is_finished (_animations p) = false ->
  _update_state_machine p = p.
Proof.
  intros Hs Hf. unfold _update_state_machine.
  rewrite bool_decide_eq_true_2 by exact Hs. now rewrite Hf.
Qed.

Lemma _update_state_machine_finished p :
  non_interruptible (_current_state p) ->
  is_finished (_animations p) = true ->
  _update_state_machine p = _enter_state PlayerState.IDLE p.
Proof.
  intros Hs Hf. unfold _update_state_machine.
  rewrite bool_decide_eq_true_2 by exact Hs. now rewrite Hf.
Qed.

Lemma _update_state_machine_block p :
  _current_state p = PlayerState.BLOCK -> _update_state_machine p = p.
Proof.
  intros Hs. unfold _update_state_machine. rewrite Hs.
  rewrite bool_decide_eq_false_2.
  - destruct (decide _) as [? | _]; [discriminate |].
    destruct (decide _) as [_ | ?]; [reflexivity | congruence].
  - rewrite !elem_of_cons, elem_of_nil. intuition discriminate.
Qed.

(** *** The shape of [update]

    [update] first touches the invulnerability timer, the jump, gravity,
    the horizontal velocity and the facing; the player [q] it has then is
    handed to the state machine, after which the animation advances and
    the image is fetched.  Nothing that the state machine reads has changed
    in [q], nor has the position. *)
Lemma update_shape delta_time p :
  exists q,
    update delta_time p =
      (let r := _update_state_machine q in
       let r := set_animations (anim_update delta_time (_animations r)) r in
       set_image (get_current_frame (facing_left r) (_animations r)) r)
    /\ _current_state q = _current_state p
    /\ _animations q = _animations p
    /\ _move_direction q = _move_direction p
    /\ _is_sprinting q = _is_sprinting p
    /\ position q = position p
    /\ in_groups q = in_groups p
    /\ _jump_requested q = (if jump_fires p then false else _jump_requested p)
    /\ on_ground q = (if jump_fires p then false else on_ground p)
    /\ vy (velocity q) =
         (if jump_fires p then (JUMP_SPEED * 60)%Q
          else if on_ground p then 0%Q else vy (velocity p))
    /\ vx (velocity q) =
         (inject_Z (_move_direction p)
          * (BASE_MOVEMENT_SPEED * (if _is_sprinting p then SPRINT_MULTIPLIER else 1))
          * 60)%Q
    /\ vx (acceleration q) = 0%Q.
Proof.
  unfold update, _update_character, jump_fires. eexists.
  split; [reflexivity |].
  repeat (simpl; case_simple_if); simpl in *; try discriminate;
    repeat split; reflexivity.
Qed.

(** The state machine only ever touches the state, the animations and the
    group membership. *)
Lemma _update_state_machine_frame p :
  let r := _update_state_machine p in
  _jump_requested r = _jump_requested p
  /\ on_ground r = on_ground p
  /\ velocity r = velocity p
  /\ _is_blocking r = _is_blocking p
  /\ acceleration r = acceleration p.
Proof.
  unfold _update_state_machine, _enter_state, kill.
  repeat case_match; simpl; auto.
Qed.

Lemma update_jump delta_time p :
  let p' := update delta_time p in
  _jump_requested p' = (if jump_fires p then false else _jump_requested p)
  /\ on_ground p' = (if jump_fires p then false else on_ground p)
  /\ vy (velocity p') =
       (if jump_fires p then (JUMP_SPEED * 60)%Q
        else if on_ground p then 0%Q else vy (velocity p)).
Proof.
  destruct (update_shape delta_time p)
    as (q & Hup & _ & _ & _ & _ & _ & _ & Hj & Hg & Hv & _).
  destruct (_update_state_machine_frame q) as (Hj' & Hg' & Hv' & _).
  cbv zeta. rewrite Hup. simpl. rewrite Hj', Hg', Hv'. auto.
Qed.

Lemma _enter_state_position new_state p :
  position (_enter_state new_state p) = position p.
Proof. unfold _enter_state. now destruct (decide _). Qed.

Lemma _update_state_machine_position p :
  position (_update_state_machine p) = position p.
Proof.
  unfold _update_state_machine.
  repeat case_match; simpl; rewrite ?_enter_state_position; reflexivity.
Qed.

Lemma update_current_state delta_time p :
  exists q,
    _current_state (update delta_time p) = _current_state (_update_state_machine q)
    /\ _current_state q = _current_state p
    /\ _animations q = _animations p.
Proof.
  destruct (update_shape delta_time p) as (q & -> & Hs & Ha & _).
  exists q. simpl. auto.
Qed.

Lemma update_unfinished delta_time p :
  non_interruptible (_current_state p) ->
  is_finished (_animations p) = false ->
  _current_state (update delta_time p) = _current_state p.
Proof.
  intros Hs Hf.
  destruct (update_current_state delta_time p) as (q & Hup & Hsq & Ha).
  rewrite Hup, _update_state_machine_unfinished; congruence.
Qed.

Lemma update_finished delta_time p :
  non_interruptible (_current_state p) ->
  is_finished (_animations p) = true ->
  _current_state (update delta_time p) = PlayerState.IDLE.
Proof.
  intros Hs Hf.
  destruct (update_current_state delta_time p) as (q & Hup & Hsq & Ha).
  rewrite Hup, _update_state_machine_finished by congruence.
  apply _enter_state_current.
Qed.

Lemma update_block delta_time p :
  _current_state p = PlayerState.BLOCK ->
  _current_state (update delta_time p) = PlayerState.BLOCK.
Proof.
  intros Hs.
  destruct (update_current_state delta_time p) as (q & Hup & Hsq & Ha).
  rewrite Hup, _update_state_machine_block; congruence.
Qed.

Lemma _can_attack_locomotion p :
  _can_attack p = true <-> locomotion (_current_state p).
Proof. unfold _can_attack, locomotion. apply bool_decide_eq_true. Qed.

(** ** The claims about [update] and the state machine *)

(** C4. For every [delta_time], [Player.update] leaves the position of the
    player as it was: it rewrites the invulnerability timer, the velocity
    and the acceleration (jump, gravity, horizontal speed), the facing, the
    animation state and the image, and never adds velocity to position.
    The last two conjuncts record what it does instead: the horizontal
    velocity is set from the move direction, the horizontal acceleration is
    zeroed. *)
Theorem update_leaves_position delta_time p :
  position (update delta_time p) = position p
  /\ vx (velocity (update delta_time p)) =
       (inject_Z (_move_direction p)
        * (BASE_MOVEMENT_SPEED * (if _is_sprinting p then SPRINT_MULTIPLIER else 1))
        * 60)%Q
  /\ vx (acceleration (update delta_time p)) = 0%Q.
Proof.
  split.
  - destruct (update_shape delta_time p) as (q & -> & _ & _ & _ & _ & Hpos & _).
    simpl. now rewrite _update_state_machine_position.
  - destruct (update_shape delta_time p)
      as (q & -> & _ & _ & _ & _ & _ & _ & _ & _ & _ & Hv & Ha).
    destruct (_update_state_machine_frame q) as (_ & _ & Hv' & _ & Ha').
    simpl. rewrite Hv', Ha'. auto.
Qed.

(** C5. The state machine resolves by priority.  In ATTACK_LIGHT_1,
    ATTACK_LIGHT_2, ATTACK_HEAVY or HURT with the active animation not
    finished, [_update_state_machine] changes nothing at all and a whole
    [update] keeps the state; with the animation finished, the state
    becomes IDLE; in BLOCK, the state machine changes nothing and [update]
    stays in BLOCK, whatever the move direction and the sprint flag are. *)
Theorem state_machine_priority delta_time p :
  (non_interruptible (_current_state p) ->
   is_finished (_animations p) = false ->
   _update_state_machine p = p
   /\ _current_state (update delta_time p) = _current_state p)
  /\ (non_interruptible (_current_state p) ->
      is_finished (_animations p) = true ->
      _current_state (_update_state_machine p) = PlayerState.IDLE
      /\ _current_state (update delta_time p) = PlayerState.IDLE)
  /\ (_current_state p = PlayerState.BLOCK ->
      _update_state_machine p = p
      /\ _current_state (update delta_time p) = PlayerState.BLOCK).
Proof.
  repeat split.
  - now apply _update_state_machine_unfinished.
  - now apply update_unfinished.
  - rewrite _update_state_machine_finished by assumption.
    apply _enter_state_current.
  - now apply update_finished.
  - now apply _update_state_machine_block.
  - now apply update_block.
Qed.

(** C6. From IDLE, WALK or RUN a left click puts the player in
    ATTACK_LIGHT_1 or in ATTACK_LIGHT_2 and in no other state, whatever
    [random.choice] draws.  In an attack state no click of any button
    changes anything, and as long as the active animation is not finished
    an [update] leaves the player in that attack state, where
    [_can_attack] is false. *)
Theorem left_click_light_attack p :
  (locomotion (_current_state p) ->
   forall current_time draw,
     _current_state (handle_mouse_click 1 current_time draw p)
       = PlayerState.ATTACK_LIGHT_1
     \/ _current_state (handle_mouse_click 1 current_time draw p)
       = PlayerState.ATTACK_LIGHT_2)
  /\ (attacking (_current_state p) ->
      (forall button current_time draw,
         handle_mouse_click button current_time draw p = p)
      /\ (forall delta_time,
            is_finished (_animations p) = false ->
            _current_state (update delta_time p) = _current_state p
            /\ _can_attack (update delta_time p) = false)).
Proof.
  split.
  - intros Hs current_time draw. apply _can_attack_locomotion in Hs.
    unfold handle_mouse_click. rewrite Hs. simpl.
    unfold random_choice. simpl length.
    pose proof (Nat.mod_upper_bound draw 2 ltac:(lia)) as Hlt.
    destruct (draw mod 2)%nat as [| [| n]]; simpl;
      rewrite ?_enter_state_current; auto; lia.
  - intros Hs. apply attacking_non_interruptible in Hs.
    split.
    + intros button current_time draw. unfold handle_mouse_click.
      now rewrite non_interruptible_cannot_attack.
    + intros delta_time Hf.
      pose proof (update_unfinished delta_time p Hs Hf) as Hst.
      split; [exact Hst |].
      apply non_interruptible_cannot_attack. now rewrite Hst.
Qed.

(** ** The claims about input handling *)

Lemma _enter_state_is_blocking new_state p :
  _is_blocking (_enter_state new_state p) = _is_blocking p.
Proof. unfold _enter_state. now destruct (decide _). Qed.

Lemma _enter_state_jump_requested new_state p :
  _jump_requested (_enter_state new_state p) = _jump_requested p.
Proof. unfold _enter_state. now destruct (decide _). Qed.

Lemma _enter_state_last_right_click_time new_state p :
  _last_right_click_time (_enter_state new_state p) = _last_right_click_time p.
Proof. unfold _enter_state. now destruct (decide _). Qed.

(** The part of the blocking rule that the code keeps: BLOCK sets the flag
    to [pressed]; a press cancels the jump request and enters BLOCK; a
    release in BLOCK enters IDLE. *)
Lemma handle_action_block pressed p :
  let p' := handle_action PlayerAction.BLOCK pressed p in
  _is_blocking p' = pressed
  /\ (pressed = true ->
      _jump_requested p' = false /\ _current_state p' = PlayerState.BLOCK)
  /\ (pressed = false -> _current_state p = PlayerState.BLOCK ->
      _current_state p' = PlayerState.IDLE).
Proof.
  unfold handle_action; simpl. destruct pressed; simpl.
  - rewrite _enter_state_is_blocking, _enter_state_jump_requested,
      _enter_state_current. simpl.
    split; [reflexivity | split; [auto | discriminate]].
  - split; [| split; [discriminate |]].
    + destruct (decide _); [apply _enter_state_is_blocking | reflexivity].
    + intros _ Hs. destruct (decide _) as [_ | Hn]; [| contradiction].
      apply _enter_state_current.
Qed.

(** Movement, jump and sprint leave the blocking flag alone. *)
Lemma handle_action_keeps_blocking action pressed p :
  action ∈ [PlayerAction.MOVE_LEFT; PlayerAction.MOVE_RIGHT;
            PlayerAction.JUMP; PlayerAction.SPRINT] ->
  _is_blocking (handle_action action pressed p) = _is_blocking p.
Proof.
  rewrite !elem_of_cons, elem_of_nil.
  intros [-> | [-> | [-> | [-> | []]]]]; unfold handle_action; simpl;
    repeat case_match; reflexivity.
Qed.

(** The attack actions overwrite the blocking flag with [pressed]. *)
Lemma handle_action_attack_blocking action pressed p :
  action ∈ [PlayerAction.ATTACK_LIGHT; PlayerAction.ATTACK_HEAVY] ->
  _is_blocking (handle_action action pressed p) = pressed.
Proof.
  rewrite !elem_of_cons, elem_of_nil.
  intros [-> | [-> | []]]; reflexivity.
Qed.

(** *** The double-click detector *)

Lemma locomotion_not_heavy s :
  locomotion s -> s <> PlayerState.ATTACK_HEAVY.
Proof.
  unfold locomotion. rewrite !elem_of_cons, elem_of_nil.
  intuition congruence.
Qed.

Lemma right_click_inside current_time draw p :
  locomotion (_current_state p) ->
  current_time - _last_right_click_time p <= DOUBLE_CLICK_THRESHOLD_MS ->
  handle_mouse_click 3 current_time draw p =
    set_last_right_click_time 0 (_enter_state PlayerState.ATTACK_HEAVY p).
Proof.
  intros Hs Ht. apply _can_attack_locomotion in Hs.
  unfold handle_mouse_click. rewrite Hs. simpl.
  now rewrite (proj2 (Z.leb_le _ _) Ht).
Qed.

Lemma right_click_outside current_time draw p :
  locomotion (_current_state p) ->
  DOUBLE_CLICK_THRESHOLD_MS < current_time - _last_right_click_time p ->
  handle_mouse_click 3 current_time draw p =
    set_last_right_click_time current_time p.
Proof.
  intros Hs Ht. apply _can_attack_locomotion in Hs.
  unfold handle_mouse_click. rewrite Hs. simpl.
  now rewrite (proj2 (Z.leb_gt _ _) Ht).
Qed.

Lemma heavy_on_true e p :
  heavy_on e p = true <->
  _current_state p <> PlayerState.ATTACK_HEAVY
  /\ _current_state (step e p) = PlayerState.ATTACK_HEAVY.
Proof.
  unfold heavy_on. now rewrite andb_true_iff, !bool_decide_eq_true.
Qed.

Lemma heavy_on_same_state e p :
  _current_state (step e p) = _current_state p -> heavy_on e p = false.
Proof.
  intros Hs. apply not_true_is_false. rewrite heavy_on_true, Hs. tauto.
Qed.

(** C1, as amended.  A right click handled while the player can attack
    fires one heavy attack and resets the stored time to zero when it comes
    within [DOUBLE_CLICK_THRESHOLD_MS] of the stored time; otherwise it only
    records its own time.  Zero is also the stored time before any right
    click and after a heavy attack, so the two consequences hold for clicks
    later than the threshold on the clock: a first right click then fires
    nothing, and neither do two right clicks further apart than the
    threshold. *)
Theorem right_click_double_click current_time draw p :
  locomotion (_current_state p) ->
  let click := Click 3 current_time draw in
  (current_time - _last_right_click_time p <= DOUBLE_CLICK_THRESHOLD_MS ->
   heavy_on click p = true
   /\ _current_state (step click p) = PlayerState.ATTACK_HEAVY
   /\ _last_right_click_time (step click p) = 0)
  /\ (DOUBLE_CLICK_THRESHOLD_MS < current_time - _last_right_click_time p ->
      heavy_on click p = false
      /\ step click p = set_last_right_click_time current_time p)
  /\ (_last_right_click_time p = 0 ->
      DOUBLE_CLICK_THRESHOLD_MS < current_time ->
      heavy_on click p = false
      /\ step click p = set_last_right_click_time current_time p)
  /\ (forall later draw',
        _last_right_click_time p = 0 ->
        DOUBLE_CLICK_THRESHOLD_MS < current_time ->
        DOUBLE_CLICK_THRESHOLD_MS < later - current_time ->
        count_on heavy_on [click; Click 3 later draw'] p = 0%nat
        /\ play [click; Click 3 later draw'] p = set_last_right_click_time later p).
Proof.
  intros Hs click.
  assert (Hout : DOUBLE_CLICK_THRESHOLD_MS < current_time - _last_right_click_time p ->
                 heavy_on click p = false
                 /\ step click p = set_last_right_click_time current_time p).
  { intros Ht. simpl. pose proof (right_click_outside current_time draw p Hs Ht) as E.
    split; [| exact E]. apply heavy_on_same_state. simpl. now rewrite E. }
  split; [| split; [exact Hout | split]].
  - intros Ht. simpl.
    rewrite heavy_on_true. simpl.
    rewrite (right_click_inside current_time draw p Hs Ht). simpl.
    rewrite _enter_state_current.
    auto using locomotion_not_heavy.
  - intros H0 Ht. apply Hout. lia.
  - intros later draw' H0 Ht Hgap.
    destruct Hout as [Hh E]; [lia |].
    simpl in E. unfold play. simpl. rewrite Hh, E.
    rewrite heavy_on_same_state; simpl.
    + split; [reflexivity |].
      rewrite right_click_outside; [reflexivity | exact Hs | simpl; lia].
    + rewrite right_click_outside; [reflexivity | exact Hs | simpl; lia].
Qed.

(** *** Damage while blocking *)

Lemma _enter_state_health new_state p :
  health (_enter_state new_state p) = health p.
Proof. unfold _enter_state. now destruct (decide _). Qed.

Lemma damage_after_block_floor amount p :
  _is_blocking p = true ->
  damage_after_block amount p =
    Z.max 1 (Qfloor (inject_Z amount * BLOCK_DAMAGE_REDUCTION)).
Proof. intros Hb. unfold damage_after_block. rewrite Hb. apply max_1_py_int. Qed.

(** Damage of at least one point, applied to a vulnerable living player,
    is taken: the call returns true and health goes down. *)
Lemma apply_damage_hits amount p :
  1 <= amount -> _invulnerable p = false -> is_alive p = true ->
  snd (apply_damage amount p) = true
  /\ health (fst (apply_damage amount p)) < health p.
Proof.
  intros Ha Hi Hl. unfold apply_damage, Character_take_damage.
  rewrite Hi, Hl. simpl. unfold is_alive in Hl. apply Z.ltb_lt in Hl.
  destruct (Z.max 0 (health p - amount) =? 0) eqn:Hz; simpl.
  - unfold _on_death. destruct (is_alive _); simpl;
      rewrite ?_enter_state_health; simpl; rewrite ?_enter_state_health; simpl;
      split; try reflexivity; lia.
  - destruct (is_alive _); simpl; rewrite ?_enter_state_health; simpl;
      split; try reflexivity; lia.
Qed.

(** C7. While the player is blocking, [take_damage amount] hands
    max(1, floor(amount * BLOCK_DAMAGE_REDUCTION)) to the base damage
    routine, for every amount; that number is at least 1, and when the base
    routine applies it (the player is vulnerable and alive) the call
    returns true and health goes down by at least one point's worth. *)
Theorem blocking_chip_damage amount p :
  _is_blocking p = true ->
  let forwarded := Z.max 1 (Qfloor (inject_Z amount * BLOCK_DAMAGE_REDUCTION)) in
  take_damage amount p = apply_damage forwarded p
  /\ 1 <= forwarded
  /\ (_invulnerable p = false -> is_alive p = true ->
      snd (take_damage amount p) = true
      /\ health (fst (take_damage amount p)) < health p).
Proof.
  intros Hb forwarded. unfold take_damage.
  rewrite (damage_after_block_floor amount p Hb). fold forwarded.
  split; [reflexivity |]. split; [subst forwarded; lia |].
  intros Hi Hl. apply apply_damage_hits; [subst forwarded; lia | assumption ..].
Qed.

(** *** The jump request *)

Lemma handle_action_jump_requested action pressed p :
  _jump_requested (handle_action action pressed p) =
    if bool_decide (action = PlayerAction.JUMP) && pressed
       && negb (_is_blocking p) && on_ground p then true
    else if bool_decide (action = PlayerAction.BLOCK) && pressed then false
    else _jump_requested p.
Proof.
  unfold handle_action.
  destruct action, pressed, (_is_blocking p), (on_ground p); simpl;
    rewrite ?_enter_state_jump_requested; simpl;
    repeat case_match; simpl; rewrite ?_enter_state_jump_requested;
    reflexivity.
Qed.

Lemma apply_damage_jump_requested amount p :
  _jump_requested (fst (apply_damage amount p)) = _jump_requested p.
Proof.
  unfold apply_damage, Character_take_damage, _on_death.
  repeat (simpl; case_simple_if); simpl;
    rewrite ?_enter_state_jump_requested; simpl;
    rewrite ?_enter_state_jump_requested; reflexivity.
Qed.

Lemma handle_mouse_click_jump_requested button current_time draw p :
  _jump_requested (handle_mouse_click button current_time draw p)
    = _jump_requested p.
Proof.
  unfold handle_mouse_click.
  repeat case_match; simpl; rewrite ?_enter_state_jump_requested; reflexivity.
Qed.

(** No event other than a JUMP press raises the request. *)
Lemma step_keeps_request_down e p :
  is_jump_press e = false ->
  _jump_requested p = false ->
  _jump_requested (step e p) = false.
Proof.
  intros He Hr. destruct e as [action pressed | | | delta_time |]; cbn [step].
  - rewrite handle_action_jump_requested, Hr.
    destruct action, pressed; simpl in *; try discriminate;
      repeat case_match; reflexivity.
  - now rewrite handle_mouse_click_jump_requested.
  - unfold take_damage. now rewrite apply_damage_jump_requested.
  - destruct (update_jump delta_time p) as (-> & _).
    rewrite Hr. now destruct (jump_fires p).
  - exact Hr.
Qed.

(** A jump consumes the request. *)
Lemma jump_clears_request e p :
  jumps_on e p = true -> _jump_requested (step e p) = false.
Proof.
  destruct e as [| | | delta_time |]; cbn [step jumps_on]; try discriminate.
  intros Hf. destruct (update_jump delta_time p) as (-> & _).
  now rewrite Hf.
Qed.

Lemma jumps_on_needs_request e p :
  _jump_requested p = false -> jumps_on e p = false.
Proof.
  intros Hr. destruct e; simpl; try reflexivity.
  unfold jump_fires. now rewrite Hr.
Qed.

(** Without a new JUMP press, a player jumps at most once, and only if a
    request is pending. *)
Lemma jumps_bounded_by_request events :
  forall p,
    forallb (fun e => negb (is_jump_press e)) events = true ->
    (count_on jumps_on events p <= if _jump_requested p then 1 else 0)%nat.
Proof.
  induction events as [| e events IH]; intros p Hno; simpl.
  - lia.
  - simpl in Hno. apply andb_true_iff in Hno as [He Hno].
    apply negb_true_iff in He.
    specialize (IH (step e p) Hno).
    destruct (_jump_requested p) eqn:Hr.
    + destruct (jumps_on e p) eqn:Hj.
      * rewrite (jump_clears_request e p Hj) in IH. lia.
      * destruct (_jump_requested (step e p)); lia.
    + rewrite (jumps_on_needs_request e p Hr).
      rewrite (step_keeps_request_down e p He Hr) in IH. lia.
Qed.

(** C8. A JUMP press raises the jump request only when the player is on
    the ground and not blocking (and then it does).  An [update] that finds
    the request with the player on the ground and not blocking sets the
    vertical velocity to the jump speed, clears the grounded flag and
    clears the request.  Hence after one press, whatever follows that is
    not another JUMP press makes the player jump at most once. *)
Theorem jump_one_shot p :
  (forall action pressed,
     _jump_requested p = false ->
     (_jump_requested (handle_action action pressed p) = true <->
      action = PlayerAction.JUMP /\ pressed = true
      /\ on_ground p = true /\ _is_blocking p = false))
  /\ (forall delta_time,
        _jump_requested p = true -> on_ground p = true ->
        _is_blocking p = false ->
        vy (velocity (update delta_time p)) = (JUMP_SPEED * 60)%Q
        /\ on_ground (update delta_time p) = false
        /\ _jump_requested (update delta_time p) = false)
  /\ (forall events,
        forallb (fun e => negb (is_jump_press e)) events = true ->
        (count_on jumps_on events (handle_action PlayerAction.JUMP true p) <= 1)%nat).
Proof.
  split; [| split].
  - intros action pressed Hr. rewrite handle_action_jump_requested, Hr.
    destruct action, pressed, (on_ground p), (_is_blocking p); simpl;
      intuition congruence.
  - intros delta_time Hr Hg Hb.
    destruct (update_jump delta_time p) as (Hj & Hg' & Hv).
    assert (Hf : jump_fires p = true) by (unfold jump_fires; now rewrite Hr, Hg, Hb).
    rewrite Hf in *. auto.
  - intros events Hno.
    pose proof (jumps_bounded_by_request events
                  (handle_action PlayerAction.JUMP true p) Hno) as Hle.
    destruct (_jump_requested _); lia.
Qed.

End PlayerProperties.



(** * Properties of the scene manager *)

Section SceneManagerProperties.
Context `{!PyBuiltins} `{!SceneClasses}.
Implicit Types m : SceneManager.

Ltac reduce := cbn -[Nat.leb py_split py_strip].

(** ** Loading the save file *)

(** [_load_saved_game] returns, whatever the file is. *)
Lemma _load_saved_game_returns file m :
  exists m', _load_saved_game file m = Ok m'.
Proof.
  unfold _load_saved_game, read_saved_game.
  destruct file as [| | | text]; reduce; eauto.
  generalize (py_split (py_strip text)); intros data.
  destruct (3 <=? _)%nat; reduce; eauto.
  destruct (data !! 0%nat ≫= parse_float); reduce; eauto.
  destruct (data !! 1%nat ≫= parse_float); reduce; eauto.
  destruct (data !! 2%nat ≫= parse_int); reduce; eauto.
  destruct (4 <=? _)%nat; reduce; eauto.
Qed.

(** A file that cannot be read, cannot be decoded, or has a field that does
    not parse, clears the held data. *)
Lemma _load_saved_game_failure file m e :
  read_saved_game file m = Raise e ->
  _load_saved_game file m = Ok (set_saved_data None m).
Proof.
  unfold _load_saved_game. intros Hr. rewrite Hr.
  destruct (_load_saved_game_returns file m) as [m' Hm'].
  unfold _load_saved_game in Hm'. rewrite Hr in Hm'.
  destruct e; simpl in *; congruence.
Qed.

(** An absent file, and a file of fewer than three fields, leave the
    manager exactly as it was. *)
Lemma _load_saved_game_nothing file m :
  file = Missing
  \/ (exists text, file = Content text /\ (length (py_split (py_strip text)) < 3)%nat) ->
  _load_saved_game file m = Ok m.
Proof.
  intros [-> | (text & -> & Hlen)]; [reflexivity |].
  unfold _load_saved_game, read_saved_game.
  now rewrite (proj2 (Nat.leb_gt _ _) Hlen).
Qed.

(** What [_load_saved_game] may change: the held data and the level, and
    the level only together with data that has been read. *)
Lemma _load_saved_game_frame file m m' :
  _load_saved_game file m = Ok m' ->
  _scene_cache m' = _scene_cache m
  /\ _scene_classes m' = _scene_classes m
  /\ config_saves m' = config_saves m
  /\ (_saved_data m' = None -> _current_level m' = _current_level m \/ m' = m).
Proof.
  unfold _load_saved_game, read_saved_game.
  destruct file as [| | | text]; reduce;
    try (intros [= <-]; reduce; auto; fail).
  generalize (py_split (py_strip text)); intros data.
  destruct (3 <=? _)%nat; reduce; [| intros [= <-]; auto].
  destruct (data !! 0%nat ≫= parse_float); reduce; [| intros [= <-]; reduce; auto].
  destruct (data !! 1%nat ≫= parse_float); reduce; [| intros [= <-]; reduce; auto].
  destruct (data !! 2%nat ≫= parse_int); reduce; [| intros [= <-]; reduce; auto].
  destruct (4 <=? _)%nat; reduce; intros [= <-]; reduce;
    repeat split; discriminate.
Qed.

(** ** Resolving scene ids *)

Lemma scene_registry_dialog : scene_registry !! "dialog" = Some DialogScene.
Proof. vm_compute. reflexivity. Qed.

Lemma scene_registry_game : scene_registry !! "game" = Some GameScene.
Proof. vm_compute. reflexivity. Qed.

Lemma scene_registry_unknown (scene_id : string) :
  scene_id ∉ ["menu"; "settings"; "game"; "dialog"] ->
  scene_registry !! scene_id = None.
Proof.
  rewrite !not_elem_of_cons. intros (? & ? & ? & ? & _).
  unfold scene_registry.
  rewrite !lookup_insert_ne by congruence. apply lookup_empty.
Qed.

Lemma _get_scene_new_game file m :
  _scene_classes m = scene_registry ->
  _get_scene file "new_game" m =
    (scene ← instantiate "dialog" DialogScene
               (dialog_arguments "introduction" "game");
     Ok (set_current_level "tutorial" (set_saved_data None m), scene)).
Proof.
  intros Hreg. unfold _get_scene, _create_scene.
  destruct (decide _) as [_ | ?]; [| done].
  cbn [_scene_classes set_current_level set_saved_data].
  rewrite Hreg, scene_registry_dialog.
  destruct (decide _) as [? | _]; [done |].
  destruct (decide _) as [_ | ?]; [| done].
  reflexivity.
Qed.

Lemma _get_scene_continue file m m' :
  _scene_classes m = scene_registry ->
  _load_saved_game file m = Ok m' ->
  _get_scene file "continue" m =
    (scene ← instantiate "game" GameScene
               (game_arguments (_current_level m') (_saved_data m'));
     Ok (m', scene)).
Proof.
  intros Hreg Hload.
  destruct (_load_saved_game_frame file m m' Hload) as (_ & Hreg' & _).
  unfold _get_scene, _create_scene.
  destruct (decide _) as [? | _]; [done |].
  destruct (decide _) as [_ | ?]; [| done].
  rewrite Hload. cbn [mbind Result_bind].
  rewrite Hreg', Hreg, scene_registry_game.
  destruct (decide _) as [_ | ?]; [| done].
  reflexivity.
Qed.

(** C2, as amended.  Resolving [new_game] clears the held saved data and
    resets the level to "tutorial"; nothing of what was held before is left.
    A [continue] resolved next reads the save file again and makes the game
    scene from what the manager then holds: the defaults ([None], "tutorial")
    when the file is absent, unreadable, malformed or too short, and
    otherwise the data that the file on disk still has. *)
Theorem new_game_then_continue file m m1 scene1 :
  _scene_classes m = scene_registry ->
  _get_scene file "new_game" m = Ok (m1, scene1) ->
  m1 = set_current_level "tutorial" (set_saved_data None m)
  /\ _saved_data m1 = None
  /\ _current_level m1 = "tutorial"
  /\ (forall file', exists m2,
        _load_saved_game file' m1 = Ok m2
        /\ _get_scene file' "continue" m1 =
             (scene ← instantiate "game" GameScene
                        (game_arguments (_current_level m2) (_saved_data m2));
              Ok (m2, scene))
        /\ (_saved_data m2 = None -> _current_level m2 = "tutorial")
        /\ ((file' = Missing
             \/ (exists text, file' = Content text
                              /\ (length (py_split (py_strip text)) < 3)%nat)
             \/ (exists e, read_saved_game file' m1 = Raise e)) ->
            _saved_data m2 = None)).
Proof.
  intros Hreg Hnew. rewrite (_get_scene_new_game file m Hreg) in Hnew.
  assert (Hm1 : m1 = set_current_level "tutorial" (set_saved_data None m)).
  { destruct (instantiate _ _ _); cbn [mbind Result_bind] in Hnew; congruence. }
  subst m1. repeat split.
  intros file'.
  destruct (_load_saved_game_returns file'
              (set_current_level "tutorial" (set_saved_data None m))) as [m2 Hload].
  exists m2. split; [exact Hload |]. split; [| split].
  - now apply _get_scene_continue.
  - intros Hnone.
    destruct (_load_saved_game_frame _ _ _ Hload) as (_ & _ & _ & Hlevel).
    destruct (Hlevel Hnone) as [-> | ->]; reflexivity.
  - intros [Hmiss | [Hshort | [e He]]].
    + rewrite _load_saved_game_nothing in Hload by auto.
      now injection Hload as <-.
    + rewrite _load_saved_game_nothing in Hload by auto.
      now injection Hload as <-.
    + rewrite (_load_saved_game_failure _ _ _ He) in Hload.
      now injection Hload as <-.
Qed.

(** ** The run loop *)

(** [_handle_transition] never answers with the empty id or with "exit":
    those two end the loop and are not ids that the loop resolves. *)
Lemma _handle_transition_resolvable from_scene to_scene scene_id :
  _handle_transition from_scene to_scene = Some scene_id ->
  scene_id <> EmptyString /\ scene_id <> "exit".
Proof.
  unfold _handle_transition. destruct to_scene as [token |]; [| discriminate].
  destruct (decide _) as [? | Hne]; [discriminate |].
  unfold transition_map. rewrite !lookup_insert, lookup_empty.
  repeat (case_decide; [subst; cbn [default]; intros [=]; subst; split; discriminate |]).
  cbn [default]. intros [= <-]. split; congruence.
Qed.

(** An id that is neither special nor registered resolves to no scene. *)
Lemma _get_scene_unknown file scene_id m :
  _scene_classes m = scene_registry ->
  scene_id ∉ special_ids ->
  scene_id ∉ ["menu"; "settings"; "game"; "dialog"] ->
  _get_scene file scene_id m = Ok (m, None).
Proof.
  intros Hreg Hspecial Hunknown.
  pose proof (scene_registry_unknown scene_id Hunknown) as Hlookup.
  unfold special_ids in Hspecial.
  rewrite !not_elem_of_cons in Hspecial. rewrite !not_elem_of_cons in Hunknown.
  destruct Hspecial as (? & ? & ? & _), Hunknown as (? & ? & ? & ? & _).
  unfold _get_scene.
  repeat (destruct (decide _) as [? | _]; [done |]).
  destruct (decide _) as [Hin | _].
  { rewrite !elem_of_cons, elem_of_nil in Hin. intuition. }
  unfold _create_scene. now rewrite Hreg, Hlookup.
Qed.

(** C9. When the run loop comes to resolve a scene id that is none of the
    special ids and has no registered scene class, [run] raises
    [SceneError] and goes no further; the scene results that were still to
    come are never looked at, and no other scene is resolved in its place.
    The ids that the loop resolves are those that [_handle_transition]
    answers with. *)
Theorem unknown_scene_is_fatal results file m from_scene to_scene scene_id :
  _scene_classes m = scene_registry ->
  _handle_transition from_scene to_scene = Some scene_id ->
  scene_id ∉ special_ids ->
  scene_id ∉ ["menu"; "settings"; "game"; "dialog"] ->
  run_loop results file m (_handle_transition from_scene to_scene)
    = Raised (SceneError ("Unknown scene: " +:+ scene_id)).
Proof.
  intros Hreg Hnext Hspecial Hunknown. rewrite Hnext.
  destruct (_handle_transition_resolvable _ _ _ Hnext) as [Hne Hexit].
  destruct results as [| result results]; cbn [run_loop];
    (destruct (decide _) as [? | _]; [done |]);
    (destruct (decide _) as [? | _]; [done |]);
    now rewrite (_get_scene_unknown file scene_id m Hreg Hspecial Hunknown).
Qed.

End SceneManagerProperties.

(** * The model at work *)

Section Examples.
#[local] Existing Instance SpecAnimation.ops.
#[local] Existing Instance spec_constants.
#[local] Existing Instance Decimal.builtins.
#[local] Existing Instance Decimal.scene_classes.

(** ** The player *)

(** C1 as it was stated does not hold at the start of the clock.  With a
    threshold of 400 ms, the first right click that a new player ever
    receives, 100 ms in, is within 400 ms of the stored time 0 and fires a
    heavy attack; two right clicks 500 ms apart, at 100 and at 600, then
    count one heavy attack, not zero. *)
Lemma first_right_click_fires_heavy :
  _last_right_click_time fresh_player = 0
  /\ _can_attack fresh_player = true
  /\ _current_state (handle_mouse_click 3 100 0 fresh_player)
       = PlayerState.ATTACK_HEAVY
  /\ count_on heavy_on [Click 3 100 0; Click 3 600 0] fresh_player = 1%nat.
Proof. vm_compute. repeat split; reflexivity. Qed.

Lemma right_click_double_click_witness :
  locomotion (_current_state fresh_player)
  /\ (heavy_on (Click 3 1000 0) fresh_player = false
      /\ step (Click 3 1000 0) fresh_player
           = set_last_right_click_time 1000 fresh_player)
  /\ (count_on heavy_on [Click 3 1000 0; Click 3 1500 0] fresh_player = 0%nat
      /\ play [Click 3 1000 0; Click 3 1500 0] fresh_player
           = set_last_right_click_time 1500 fresh_player)
  /\ heavy_on (Click 3 1150 0) (set_last_right_click_time 1000 fresh_player) = true.
Proof.
  assert (Hloc : locomotion (_current_state fresh_player))
    by apply list_elem_of_here.
  destruct (right_click_double_click 1000 0 fresh_player Hloc)
    as (_ & _ & Hfirst & Htwo).
  destruct (right_click_double_click 1150 0
              (set_last_right_click_time 1000 fresh_player) Hloc)
    as (Hinside & _).
  split; [exact Hloc |]. split; [| split].
  - apply Hfirst; reflexivity.
  - apply (Htwo 1500 0%nat); reflexivity.
  - apply Hinside. vm_compute. discriminate.
Defined.

(** C3: the attack actions write the blocking flag.  A player who is not
    blocking is blocking after a press of ATTACK_LIGHT or of ATTACK_HEAVY; a
    player who holds BLOCK stops blocking, while still in state BLOCK, when
    an attack action is released. *)
Lemma attack_action_overwrites_blocking :
  _is_blocking grounded_player = false
  /\ _is_blocking (handle_action PlayerAction.ATTACK_LIGHT true grounded_player) = true
  /\ _is_blocking (handle_action PlayerAction.ATTACK_HEAVY true grounded_player) = true
  /\ _is_blocking blocking_player = true
  /\ _is_blocking (handle_action PlayerAction.ATTACK_LIGHT false blocking_player) = false
  /\ _current_state (handle_action PlayerAction.ATTACK_LIGHT false blocking_player)
       = PlayerState.BLOCK.
Proof. vm_compute. repeat split; reflexivity. Qed.

Lemma state_machine_priority_witness :
  _current_state (update (1 # 60) attacking_player) = PlayerState.ATTACK_LIGHT_1
  /\ _current_state (update (1 # 60) spent_attack_player) = PlayerState.IDLE
  /\ _move_direction blocking_player = 1
  /\ _current_state (update (1 # 60) blocking_player) = PlayerState.BLOCK.
Proof.
  destruct (state_machine_priority (1 # 60) attacking_player) as (Hkeep & _ & _).
  destruct (state_machine_priority (1 # 60) spent_attack_player) as (_ & Hdone & _).
  destruct (state_machine_priority (1 # 60) blocking_player) as (_ & _ & Hblock).
  split; [| split; [| split]].
  - destruct Hkeep as [_ Hstate];
      [apply list_elem_of_here | vm_compute; reflexivity | exact Hstate].
  - destruct Hdone as [_ Hstate];
      [vm_compute; apply list_elem_of_here | vm_compute; reflexivity | exact Hstate].
  - reflexivity.
  - destruct Hblock as [_ Hstate]; [reflexivity | exact Hstate].
Defined.

Lemma left_click_light_attack_witness :
  (_current_state (handle_mouse_click 1 1000 7 grounded_player)
     = PlayerState.ATTACK_LIGHT_1
   \/ _current_state (handle_mouse_click 1 1000 7 grounded_player)
     = PlayerState.ATTACK_LIGHT_2)
  /\ handle_mouse_click 1 1100 0 attacking_player = attacking_player
  /\ _can_attack (update (1 # 60) attacking_player) = false.
Proof.
  destruct (left_click_light_attack grounded_player) as (Hlight & _).
  destruct (left_click_light_attack attacking_player) as (_ & Hbusy).
  destruct Hbusy as (Hclick & Hupdate); [apply list_elem_of_here |].
  split; [| split].
  - apply Hlight. apply list_elem_of_here.
  - apply Hclick.
  - apply Hupdate. vm_compute. reflexivity.
Defined.

Lemma blocking_chip_damage_witness :
  _is_blocking blocking_player = true
  /\ take_damage 1 blocking_player = apply_damage 1 blocking_player
  /\ health (fst (take_damage 1 blocking_player)) < health blocking_player.
Proof.
  assert (Hblocking : _is_blocking blocking_player = true) by reflexivity.
  destruct (blocking_chip_damage 1 blocking_player Hblocking) as (Hforward & _ & Hhit).
  split; [exact Hblocking |]. split; [exact Hforward |].
  apply Hhit; reflexivity.
Defined.

Lemma jump_one_shot_witness :
  _jump_requested (handle_action PlayerAction.JUMP true grounded_player) = true
  /\ (vy (velocity (update (1 # 60)
                      (handle_action PlayerAction.JUMP true grounded_player)))
        = (JUMP_SPEED * 60)%Q
      /\ on_ground (update (1 # 60)
                      (handle_action PlayerAction.JUMP true grounded_player)) = false
      /\ _jump_requested (update (1 # 60)
                            (handle_action PlayerAction.JUMP true grounded_player))
           = false)
  /\ (count_on jumps_on
        [Update (1 # 60); Physics true; Update (1 # 60);
         Action PlayerAction.JUMP false; Update (1 # 60)]
        (handle_action PlayerAction.JUMP true grounded_player) <= 1)%nat.
Proof.
  destruct (jump_one_shot grounded_player) as (Hlatch & _ & Honce).
  destruct (jump_one_shot (handle_action PlayerAction.JUMP true grounded_player))
    as (_ & Hconsume & _).
  split; [| split].
  - apply Hlatch; [reflexivity | repeat split; reflexivity].
  - apply Hconsume; reflexivity.
  - apply Honce. reflexivity.
Defined.

(** ** The scene manager *)

(** Evaluate the two sides of an equation, each on its own. *)
Ltac compute_sides :=
  match goal with
  | |- ?l = ?r =>
      let l' := eval vm_compute in l in
      let r' := eval vm_compute in r in
      change (l' = r')
  end.

Example continue_loads_saved_game :
  _get_scene saved_game "continue" new_scene_manager =
    Ok (loaded_manager,
        Some (mkScene GameScene (game_arguments "cave" (Some (12.5%Q, 40.0%Q, 80))))).
Proof. compute_sides. reflexivity. Qed.

(** C2 as it was stated does not hold while the save file is still on disk:
    a manager that holds the data of [saved_game] is cleared by [new_game],
    and the [continue] resolved next, no save having been written in between,
    makes the game scene with the very data and level held before. *)
Lemma continue_after_new_game_reloads_save :
  exists m1 scene1 m2,
    _get_scene saved_game "new_game" loaded_manager = Ok (m1, scene1)
    /\ _saved_data m1 = None
    /\ _get_scene saved_game "continue" m1 =
         Ok (m2, Some (mkScene GameScene
                         (game_arguments (_current_level loaded_manager)
                                         (_saved_data loaded_manager))))
    /\ _saved_data loaded_manager <> None.
Proof.
  exists (set_current_level "tutorial" (set_saved_data None loaded_manager)),
    (Some (mkScene DialogScene (dialog_arguments "introduction" "game"))),
    loaded_manager.
  split; [compute_sides; reflexivity |].
  split; [reflexivity |]. split; [compute_sides; reflexivity | discriminate].
Qed.

Lemma new_game_then_continue_witness :
  _saved_data (set_current_level "tutorial" (set_saved_data None loaded_manager)) = None
  /\ exists m2,
       _get_scene Missing "continue"
         (set_current_level "tutorial" (set_saved_data None loaded_manager))
         = (scene ← instantiate "game" GameScene
                      (game_arguments (_current_level m2) (_saved_data m2));
            Ok (m2, scene))
       /\ _saved_data m2 = None
       /\ _current_level m2 = "tutorial".
Proof.
  destruct (new_game_then_continue saved_game loaded_manager
              (set_current_level "tutorial" (set_saved_data None loaded_manager))
              (Some (mkScene DialogScene (dialog_arguments "introduction" "game"))))
    as (_ & Hcleared & _ & Hcontinue);
    [reflexivity | compute_sides; reflexivity |].
  split; [exact Hcleared |].
  destruct (Hcontinue Missing) as (m2 & _ & Hscene & Hlevel & Hnone).
  exists m2. split; [exact Hscene |].
  assert (Hsaved : _saved_data m2 = None) by (apply Hnone; left; reflexivity).
  split; [exact Hsaved | exact (Hlevel Hsaved)].
Defined.

Lemma unknown_scene_is_fatal_witness :
  run_loop [(Some "menu", Missing)] Missing new_scene_manager
    (_handle_transition "menu" (Some "credits"))
  = Raised (SceneError "Unknown scene: credits").
Proof.
  apply (unknown_scene_is_fatal [(Some "menu", Missing)] Missing new_scene_manager
           "menu" (Some "credits") "credits").
  - reflexivity.
  - vm_compute. reflexivity.
  - unfold special_ids. rewrite !not_elem_of_cons.
    repeat split; try discriminate. apply not_elem_of_nil.
  - rewrite !not_elem_of_cons.
    repeat split; try discriminate. apply not_elem_of_nil.
Defined.

(** A whole run: the menu hands back a token that is not in the transition
    table and names no scene. *)
Example run_unknown_scene :
  run [(Some "credits", Missing); (Some "exit", Missing)] Missing
  = Raised (SceneError "Unknown scene: credits").
Proof. compute_sides. reflexivity. Qed.

(** A whole run that ends by "exit": the loop returns after the clean-up. *)
Example run_to_exit :
  exists m,
    run [(Some "new_game", Missing); (Some "game", Missing); (Some "exit", Missing)]
        Missing = Returned m
    /\ _scene_cache m = ∅ /\ config_saves m = 1%nat.
Proof.
  exists (_cleanup
            (set_scene_cache (<["menu" := Some (mkScene MenuScene no_arguments)]> ∅)
               new_scene_manager)).
  split; [compute_sides; reflexivity | split; reflexivity].
Qed.

(** C10: a manager that holds loaded data keeps it when the save file has
    gone missing or holds fewer than three fields, and [continue] then makes
    the game scene from that data; a file with a field that does not parse,
    by contrast, clears it. *)
Lemma load_saved_game_keeps_stale_data :
  _saved_data loaded_manager = Some (12.5%Q, 40.0%Q, 80)
  /\ _load_saved_game Missing loaded_manager = Ok loaded_manager
  /\ _load_saved_game (Content "12.5 40.0") loaded_manager = Ok loaded_manager
  /\ _load_saved_game (Content "12.5 forty 80") loaded_manager
       = Ok (set_saved_data None loaded_manager)
  /\ _get_scene Missing "continue" loaded_manager =
       Ok (loaded_manager,
           Some (mkScene GameScene
                   (game_arguments "cave" (Some (12.5%Q, 40.0%Q, 80))))).
Proof. repeat split; compute_sides; reflexivity. Qed.

End Examples.

(** * Further properties of the player *)

Section FurtherPlayerProperties.
Context {A Frame : Type} `{!AnimationSetOps A Frame} `{!Constants}.
Implicit Types p : Player A Frame.

(** ** Movement keys *)

(** The state machine leaves the intent flags alone. *)
Lemma _update_state_machine_intent p :
  _move_direction (_update_state_machine p) = _move_direction p
  /\ _is_sprinting (_update_state_machine p) = _is_sprinting p
  /\ facing_left (_update_state_machine p) = facing_left p
  /\ _invulnerable (_update_state_machine p) = _invulnerable p
  /\ _invulnerable_timer (_update_state_machine p) = _invulnerable_timer p.
Proof.
  unfold _update_state_machine, _enter_state, kill.
  repeat case_match; simpl; auto.
Qed.

Lemma update_move_direction delta_time p :
  _move_direction (update delta_time p) = _move_direction p.
Proof.
  destruct (update_shape delta_time p) as (q & -> & _ & _ & Hd & _).
  destruct (_update_state_machine_intent q) as (Hd' & _).
  simpl. congruence.
Qed.

Lemma handle_mouse_click_move_direction button current_time draw p :
  _move_direction (handle_mouse_click button current_time draw p)
    = _move_direction p.
Proof.
  unfold handle_mouse_click, _enter_state.
  repeat case_match; reflexivity.
Qed.

(** X1. The move direction stays one of -1, 0 and 1: every input action
    keeps it in that range, and neither a mouse click nor an [update] changes
    it. *)
Theorem move_direction_in_range p :
  -1 <= _move_direction p <= 1 ->
  (forall action pressed,
     -1 <= _move_direction (handle_action action pressed p) <= 1)
  /\ (forall button current_time draw,
        _move_direction (handle_mouse_click button current_time draw p)
          = _move_direction p)
  /\ (forall delta_time,
        _move_direction (update delta_time p) = _move_direction p).
Proof.
  intros Hrange. split; [| split].
  - intros action pressed. unfold handle_action, _enter_state.
    destruct action, pressed; simpl; repeat case_match; simpl; lia.
  - intros. apply handle_mouse_click_move_direction.
  - intros. apply update_move_direction.
Qed.

(** X2. Two direction keys.  With LEFT pressed and then RIGHT, the player
    moves right; releasing LEFT, which is not the active direction, changes
    nothing; releasing RIGHT stops the player although LEFT is still held.
    In general a release only zeroes the direction that is active. *)
Theorem opposite_direction_keys p :
  let both :=
    handle_action PlayerAction.MOVE_RIGHT true
      (handle_action PlayerAction.MOVE_LEFT true p) in
  _move_direction both = 1
  /\ _move_direction (handle_action PlayerAction.MOVE_LEFT false both) = 1
  /\ _move_direction (handle_action PlayerAction.MOVE_RIGHT false both) = 0
  /\ (_move_direction p <> -1 ->
      handle_action PlayerAction.MOVE_LEFT false p = p)
  /\ (_move_direction p <> 1 ->
      handle_action PlayerAction.MOVE_RIGHT false p = p).
Proof.
  repeat split.
  - intros Hd. unfold handle_action. simpl.
    destruct (decide _) as [_ | ?]; [| contradiction]. now destruct p.
  - intros Hd. unfold handle_action. simpl.
    destruct (decide _) as [_ | ?]; [| contradiction]. now destruct p.
Qed.

(** ** Coins and mana *)

(** X3. Coins are never negative: [add_coins] floors the sum at zero for
    every amount; [spend_coins] succeeds exactly when the coins cover the
    amount, then takes the amount off, and otherwise changes nothing; a
    purse that is not negative stays so under both. *)
Theorem coins_never_negative amount p :
  0 <= _coins (add_coins amount p)
  /\ (0 <= _coins p + amount -> _coins (add_coins amount p) = _coins p + amount)
  /\ (snd (spend_coins amount p) = true <-> amount <= _coins p)
  /\ (amount <= _coins p ->
      _coins (fst (spend_coins amount p)) = _coins p - amount)
  /\ (_coins p < amount -> fst (spend_coins amount p) = p)
  /\ (0 <= _coins p -> 0 <= _coins (fst (spend_coins amount p))).
Proof.
  unfold add_coins, spend_coins. simpl.
  destruct (Z.leb_spec amount (_coins p)); simpl; repeat split; intros; try lia;
    try congruence.
Qed.

(** X4. Mana stays between zero and its maximum under amounts that are not
    negative: [add_mana] caps at the maximum (for every amount), [use_mana]
    succeeds exactly when the mana covers the amount and never goes below
    zero. *)
Theorem mana_stays_in_bounds amount p :
  0 <= amount ->
  0 <= _mana p <= _max_mana p ->
  0 <= _mana (add_mana amount p) <= _max_mana (add_mana amount p)
  /\ 0 <= _mana (fst (use_mana amount p)) <= _max_mana (fst (use_mana amount p))
  /\ (snd (use_mana amount p) = true <-> amount <= _mana p)
  /\ (_mana p < amount -> fst (use_mana amount p) = p).
Proof.
  intros Hamount Hbounds. unfold add_mana, use_mana. simpl.
  destruct (Z.leb_spec amount (_mana p)); simpl; repeat split; intros; try lia;
    try congruence.
Qed.

(** [add_mana] never exceeds the maximum, whatever the amount and the mana
    before. *)
Lemma add_mana_capped amount p :
  _mana (add_mana amount p) <= _max_mana p.
Proof. unfold add_mana. simpl. lia. Qed.

(** X5. [mana_percentage] is zero when the maximum is not positive (no
    division by zero), and lies between 0 and 1 when the mana is within its
    bounds. *)
Theorem mana_percentage_bounds p :
  (_max_mana p <= 0 -> mana_percentage p = 0%Q)
  /\ (0 <= _mana p <= _max_mana p ->
      (0 <= mana_percentage p)%Q /\ (mana_percentage p <= 1)%Q)
  /\ (0 < _max_mana p -> _mana p = _max_mana p -> (mana_percentage p == 1)%Q).
Proof.
  unfold mana_percentage. split; [| split].
  - intros Hmax. now rewrite (proj2 (Z.ltb_ge _ _) Hmax).
  - intros [Hlow Hhigh]. destruct (Z.ltb_spec 0 (_max_mana p)) as [Hpos | Hmax].
    + assert (Hq : (0 < inject_Z (_max_mana p))%Q)
        by (rewrite <- (Zlt_Qlt 0); exact Hpos).
      split.
      * apply Qle_shift_div_l; [exact Hq |]. rewrite Qmult_0_l.
        rewrite <- (Zle_Qle 0). exact Hlow.
      * apply Qle_shift_div_r; [exact Hq |]. rewrite Qmult_1_l.
        rewrite <- Zle_Qle. exact Hhigh.
    + split; [apply Qle_refl | discriminate].
  - intros Hpos Heq. rewrite (proj2 (Z.ltb_lt _ _) Hpos), Heq.
    apply Qmult_inv_r. intros Hzero.
    assert (Hq : (0 < inject_Z (_max_mana p))%Q)
      by (rewrite <- (Zlt_Qlt 0); exact Hpos).
    rewrite Hzero in Hq. now apply Qlt_irrefl in Hq.
Qed.

(** ** The animation state *)

Lemma locomotion_cases s :
  locomotion s ->
  ~ non_interruptible s /\ s <> PlayerState.DEATH /\ s <> PlayerState.BLOCK.
Proof.
  unfold locomotion, non_interruptible.
  rewrite !elem_of_cons, !elem_of_nil. intuition congruence.
Qed.

Lemma _update_state_machine_locomotion p :
  locomotion (_current_state p) ->
  _update_state_machine p =
    _enter_state
      (if decide (_move_direction p <> 0) then
         (if _is_sprinting p then PlayerState.RUN else PlayerState.WALK)
       else PlayerState.IDLE) p.
Proof.
  intros Hs. destruct (locomotion_cases _ Hs) as (Hn & Hd & Hb).
  unfold _update_state_machine.
  rewrite bool_decide_eq_false_2 by exact Hn.
  destruct (decide (_current_state p = PlayerState.DEATH)); [contradiction |].
  destruct (decide (_current_state p = PlayerState.BLOCK)); [contradiction |].
  reflexivity.
Qed.

(** X6. From IDLE, WALK or RUN an [update] settles the state by the move
    direction and the sprint flag alone: RUN when moving and sprinting, WALK
    when moving without sprint, IDLE when the direction is zero. *)
Theorem update_resolves_locomotion delta_time p :
  locomotion (_current_state p) ->
  _current_state (update delta_time p) =
    if decide (_move_direction p <> 0) then
      (if _is_sprinting p then PlayerState.RUN else PlayerState.WALK)
    else PlayerState.IDLE.
Proof.
  intros Hs.
  destruct (update_shape delta_time p) as (q & -> & Hsq & _ & Hd & Hsp & _).
  simpl. rewrite _update_state_machine_locomotion by (now rewrite Hsq).
  rewrite _enter_state_current, Hd, Hsp. reflexivity.
Qed.

Lemma _update_state_machine_death p :
  _current_state p = PlayerState.DEATH ->
  _update_state_machine p = if is_finished (_animations p) then kill p else p.
Proof.
  intros Hs. unfold _update_state_machine. rewrite Hs.
  rewrite bool_decide_eq_false_2.
  - destruct (decide _) as [_ | ?]; [reflexivity | contradiction].
  - rewrite !elem_of_cons, elem_of_nil. intuition discriminate.
Qed.

(** X7. DEATH.  In state DEATH no click changes anything, no action other
    than a BLOCK press changes the state, and an [update] keeps the state and
    takes the sprite out of its groups once the death animation is finished.
    A BLOCK press, which is not guarded by the state, does leave DEATH for
    BLOCK. *)
Theorem death_state p :
  _current_state p = PlayerState.DEATH ->
  (forall button current_time draw,
     handle_mouse_click button current_time draw p = p)
  /\ (forall action pressed,
        (action = PlayerAction.BLOCK -> pressed = false) ->
        _current_state (handle_action action pressed p) = PlayerState.DEATH)
  /\ (forall delta_time,
        _current_state (update delta_time p) = PlayerState.DEATH
        /\ in_groups (update delta_time p) =
             (if is_finished (_animations p) then false else in_groups p))
  /\ _current_state (handle_action PlayerAction.BLOCK true p) = PlayerState.BLOCK.
Proof.
  intros Hs. split; [| split; [| split]].
  - intros. unfold handle_mouse_click, _can_attack. rewrite Hs.
    now rewrite bool_decide_eq_false_2
      by (rewrite !elem_of_cons, elem_of_nil; intuition discriminate).
  - intros action pressed Hguard. unfold handle_action.
    destruct action, pressed; simpl; repeat case_match; simpl;
      try assumption; try congruence.
    discriminate (Hguard eq_refl).
  - intros delta_time.
    destruct (update_shape delta_time p)
      as (q & -> & Hsq & Haq & _ & _ & _ & Hg & _).
    simpl. rewrite _update_state_machine_death by congruence.
    rewrite Haq. destruct (is_finished (_animations p)); simpl;
      split; congruence.
  - unfold handle_action. simpl. apply _enter_state_current.
Qed.

(** X8. Of the seven actions only BLOCK touches the animation state:
    movement, jump, sprint and the two attack actions leave the state and
    the animation set as they are, in every state; so does a BLOCK release
    outside state BLOCK.  A BLOCK press enters BLOCK from every state. *)
Theorem only_block_changes_state action pressed p :
  (action <> PlayerAction.BLOCK ->
   _current_state (handle_action action pressed p) = _current_state p
   /\ _animations (handle_action action pressed p) = _animations p)
  /\ (_current_state p <> PlayerState.BLOCK ->
      _current_state (handle_action PlayerAction.BLOCK false p) = _current_state p
      /\ _animations (handle_action PlayerAction.BLOCK false p) = _animations p)
  /\ _current_state (handle_action PlayerAction.BLOCK true p) = PlayerState.BLOCK.
Proof.
  split; [| split].
  - intros Hne. unfold handle_action.
    destruct action; try contradiction; simpl; repeat case_match; auto.
  - intros Hne. unfold handle_action. simpl.
    destruct (decide _); [contradiction | auto].
  - unfold handle_action. simpl. apply _enter_state_current.
Qed.

(** ** The rest of [update] *)

(** Case analysis on a condition that has no conditional inside it. *)
Ltac case_plain_if :=
  match goal with
  | |- context [if ?c then _ else _] =>
      lazymatch c with
      | context [if _ then _ else _] => fail
      | _ => destruct c eqn:?
      end
  end.

(** The part of [update] before the state machine, seen through the
    invulnerability fields, the facing and the vertical acceleration. *)
Lemma update_shape_body delta_time p :
  exists q,
    update delta_time p =
      (let r := _update_state_machine q in
       let r := set_animations (anim_update delta_time (_animations r)) r in
       set_image (get_current_frame (facing_left r) (_animations r)) r)
    /\ _invulnerable q =
         (if _invulnerable p && Qltb 0 (_invulnerable_timer p) then
            negb (Qle_bool (_invulnerable_timer p - delta_time) 0)
          else _invulnerable p)
    /\ _invulnerable_timer q =
         (if _invulnerable p && Qltb 0 (_invulnerable_timer p) then
            (if Qle_bool (_invulnerable_timer p - delta_time) 0 then 0%Q
             else (_invulnerable_timer p - delta_time)%Q)
          else _invulnerable_timer p)
    /\ facing_left q =
         (if _move_direction p <? 0 then true
          else if 0 <? _move_direction p then false else facing_left p)
    /\ vy (acceleration q) =
         (if jump_fires p || negb (on_ground p) then (GRAVITY * 60 * 60)%Q
          else 0%Q).
Proof.
  unfold update, _update_character, jump_fires. eexists.
  split; [reflexivity |].
  repeat (simpl; case_plain_if); simpl in *; try discriminate;
    repeat match goal with
           | H : _ && _ = true |- _ => apply andb_true_iff in H as [? ?]
           end;
    repeat split; congruence.
Qed.

Lemma _update_state_machine_acceleration p :
  acceleration (_update_state_machine p) = acceleration p.
Proof.
  unfold _update_state_machine, _enter_state, kill.
  repeat case_match; reflexivity.
Qed.

(** X9. Facing and image.  An [update] turns the player left on a negative
    move direction, right on a positive one, and keeps the facing on zero;
    the image it leaves is the current frame of the animation set as it is
    after the update, mirrored by that facing. *)
Theorem update_facing_and_image delta_time p :
  facing_left (update delta_time p) =
    (if _move_direction p <? 0 then true
     else if 0 <? _move_direction p then false else facing_left p)
  /\ image (update delta_time p) =
       get_current_frame (facing_left (update delta_time p))
                         (_animations (update delta_time p)).
Proof.
  destruct (update_shape_body delta_time p) as (q & -> & _ & _ & Hf & _).
  destruct (_update_state_machine_intent q) as (_ & _ & Hf' & _).
  simpl. rewrite Hf', Hf. split; reflexivity.
Qed.

(** X10. Vertical physics.  After an [update] a player who is on the ground
    and does not jump has zero vertical velocity and zero vertical
    acceleration; a player in the air, or one who jumps in this update, has
    gravity as vertical acceleration, and one already in the air keeps the
    vertical velocity it had. *)
Theorem update_gravity delta_time p :
  (on_ground p = true -> jump_fires p = false ->
   vy (velocity (update delta_time p)) = 0%Q
   /\ vy (acceleration (update delta_time p)) = 0%Q
   /\ on_ground (update delta_time p) = true)
  /\ (on_ground p = false ->
      vy (velocity (update delta_time p)) = vy (velocity p)
      /\ vy (acceleration (update delta_time p)) = (GRAVITY * 60 * 60)%Q
      /\ on_ground (update delta_time p) = false)
  /\ (jump_fires p = true ->
      vy (acceleration (update delta_time p)) = (GRAVITY * 60 * 60)%Q).
Proof.
  destruct (update_jump delta_time p) as (_ & Hg & Hv).
  destruct (update_shape_body delta_time p) as (q & Hup & _ & _ & _ & Ha).
  assert (Hacc : vy (acceleration (update delta_time p)) =
                 (if jump_fires p || negb (on_ground p) then (GRAVITY * 60 * 60)%Q
                  else 0%Q)).
  { rewrite Hup. simpl. now rewrite _update_state_machine_acceleration. }
  split; [| split].
  - intros Hground Hjump. rewrite Hv, Hacc, Hg, Hjump, Hground. auto.
  - intros Hair.
    assert (Hjump : jump_fires p = false)
      by (unfold jump_fires; rewrite Hair; apply andb_false_iff; left;
          apply andb_false_r).
    rewrite Hv, Hacc, Hg, Hjump, Hair. auto.
  - intros Hjump. now rewrite Hacc, Hjump.
Qed.

(** ** The invulnerability timer *)





End FurtherPlayerProperties.

(** ** Loading the frames of an animation *)

#[local] Instance path_le_total : Total path_le.
Proof. intros a b. unfold path_le. apply String.leb_total. Qed.

(** The loop of [_load_animation_frames] keeps the files that load, in the
    order in which it meets them. *)
Lemma load_loop (files : list (string * bool)) (frames : list Surface) :
  foldl (fun (frames : list Surface) (image : string * bool) =>
           if image.2 then frames ++ [scaled_frame image.1] else frames)
        frames files
  = frames ++ ((fun image => scaled_frame image.1) <$>
               filter (fun image => image.2 = true) files).
Proof.
  revert frames. induction files as [| [path ok] files IH]; intros frames.
  - simpl. now rewrite app_nil_r.
  - cbn [foldl]. rewrite IH. destruct ok; cbn [fst snd].
    + rewrite filter_cons_True by reflexivity.
      rewrite fmap_cons. cbn [fst]. now rewrite <- app_assoc.
    + now rewrite filter_cons_False by discriminate.
Qed.

(** X12. [_load_animation_frames] never returns an empty list.  For a
    folder that does not exist, or in which no file loads, it returns the
    placeholder alone; otherwise it returns one frame for each file that
    loads and no placeholder, taken from the files in sorted order. *)
Theorem _load_animation_frames_never_empty (folder : option (list (string * bool))) :
  _load_animation_frames folder <> []
  /\ (folder = None -> _load_animation_frames folder = [placeholder])
  /\ (forall files,
        folder = Some files ->
        exists sorted_files,
          Sorted path_le sorted_files
          /\ sorted_files ≡ₚ files
          /\ let loaded :=
               (fun image => scaled_frame image.1) <$>
               filter (fun image => image.2 = true) sorted_files in
             _load_animation_frames folder =
               (if decide (Forall (fun image => image.2 = false) files)
                then [placeholder] else loaded)
             /\ length loaded
                = length (filter (fun image => image.2 = true) files)).
Proof.
  split; [| split].
  - destruct folder as [files |]; simpl; [| discriminate].
    destruct (foldl _ _ _); simpl; discriminate.
  - now intros ->.
  - intros files ->. exists (merge_sort path_le files).
    split; [apply (Sorted_merge_sort path_le) |].
    split; [apply merge_sort_Permutation |].
    simpl. rewrite load_loop. simpl.
    assert (Hperm : filter (fun image : string * bool => image.2 = true)
                      (merge_sort path_le files)
                    ≡ₚ filter (fun image => image.2 = true) files)
      by (now rewrite merge_sort_Permutation).
    split; [| now rewrite length_fmap, Hperm].
    destruct (decide (Forall _ files)) as [Hnone | Hsome].
    + assert (Hnil : filter (fun image : string * bool => image.2 = true) files = []).
      { clear Hperm. induction Hnone as [| [path ok] files Hok _ IH]; [reflexivity |].
        simpl in Hok. subst ok. now rewrite filter_cons_False by discriminate. }
      rewrite Hnil in Hperm. apply Permutation_nil_r in Hperm.
      now rewrite Hperm.
    + destruct (filter _ (merge_sort path_le files)) as [| image rest] eqn:Hloaded;
        [| reflexivity].
      exfalso. apply Hsome. apply Forall_forall. intros [path ok] Hin.
      destruct ok; [| reflexivity].
      assert (Hin' : (path, true) ∈ filter (fun image : string * bool => image.2 = true)
                                      (merge_sort path_le files)).
      { apply list_elem_of_filter. split; [reflexivity |].
        now rewrite merge_sort_Permutation. }
      rewrite Hloaded in Hin'. now apply elem_of_nil in Hin'.
Qed.

(** * Further properties of the scene manager *)

Section FurtherSceneManagerProperties.
Context `{!PyBuiltins} `{!SceneClasses}.
Implicit Types m : SceneManager.

(** ** The transition table *)

(** What [_handle_transition] can answer: one of the five ids that the
    table maps to, or a token that the table does not know. *)
Lemma _handle_transition_answers from_scene to_scene scene_id :
  _handle_transition from_scene to_scene = Some scene_id ->
  scene_id ∈ ["menu"; "settings"; "new_game"; "continue"; "game"]
  \/ (transition_map !! scene_id = None /\ scene_id <> EmptyString).
Proof.
  unfold _handle_transition. destruct to_scene as [token |]; [| discriminate].
  destruct (decide _) as [? | Hne]; [discriminate |].
  unfold transition_map at 1. rewrite !lookup_insert, lookup_empty.
  repeat (case_decide;
          [subst; cbn [default]; intros [=]; subst; left;
           rewrite !elem_of_cons; auto 10 |]).
  cbn [default]. intros [= <-]. right. split; [| exact Hne].
  unfold transition_map. rewrite !lookup_insert_ne by congruence.
  apply lookup_empty.
Qed.

(** X13. Translating a token twice is the same as translating it once, and
    the scene that the token comes from plays no part: an id that
    [_handle_transition] has answered with is answered with itself. *)
Theorem _handle_transition_idempotent from_scene from_scene' to_scene :
  _handle_transition from_scene' (_handle_transition from_scene to_scene)
  = _handle_transition from_scene to_scene.
Proof.
  destruct (_handle_transition from_scene to_scene) as [scene_id |] eqn:Hanswer;
    [| reflexivity].
  apply _handle_transition_answers in Hanswer as [Hknown | [Hnone Hne]].
  - rewrite !elem_of_cons, elem_of_nil in Hknown.
    destruct Hknown as [-> | [-> | [-> | [-> | [-> | []]]]]];
      vm_compute; reflexivity.
  - unfold _handle_transition.
    destruct (decide _) as [? | _]; [contradiction |].
    now rewrite Hnone.
Qed.

(** ** The scene cache *)


(** ** What [_get_scene] and [run] do to the manager *)

Lemma instantiate_raises scene_id scene_class arguments e :
  instantiate scene_id scene_class arguments = Raise e ->
  exists message, e = SceneError message.
Proof.
  unfold instantiate. destruct (construction_error _ _); [| discriminate].
  intros [= <-]. eauto.
Qed.

Lemma _create_scene_raises scene_id kwargs m e :
  _create_scene scene_id kwargs m = Raise e ->
  exists message, e = SceneError message.
Proof.
  unfold _create_scene. destruct (_scene_classes m !! scene_id); [| discriminate].
  repeat case_decide; apply instantiate_raises.
Qed.

(** [_get_scene] raises nothing but [SceneError], and what it returns has
    the registry and the count of saves of the manager it started from. *)
Lemma _get_scene_outcome file scene_id m :
  match _get_scene file scene_id m with
  | Ok (m', _) =>
      _scene_classes m' = _scene_classes m /\ config_saves m' = config_saves m
  | Raise e => exists message, e = SceneError message
  end.
Proof.
  unfold _get_scene. repeat case_decide.
  - destruct (_create_scene _ _ _) as [scene | e] eqn:Hmake;
      cbn [mbind Result_bind]; [auto | eauto using _create_scene_raises].
  - destruct (_load_saved_game_returns file m) as [m' Hload]. rewrite Hload.
    destruct (_load_saved_game_frame file m m' Hload) as (_ & Hreg & Hsaves & _).
    cbn [mbind Result_bind].
    destruct (_create_scene _ _ _) as [scene | e] eqn:Hmake;
      cbn [mbind Result_bind]; [auto | eauto using _create_scene_raises].
  - destruct (_create_scene _ _ _) as [scene | e] eqn:Hmake;
      cbn [mbind Result_bind]; [auto | eauto using _create_scene_raises].
  - destruct (_scene_cache m !! scene_id); cbn [mbind Result_bind]; [auto |].
    destruct (_create_scene _ _ _) as [scene | e] eqn:Hmake;
      cbn [mbind Result_bind]; [auto | eauto using _create_scene_raises].
  - destruct (_create_scene _ _ _) as [scene | e] eqn:Hmake;
      cbn [mbind Result_bind]; [auto | eauto using _create_scene_raises].
Qed.

(** The three ways in which the loop can end, with what holds in each. *)
Lemma run_loop_outcome results :
  forall file m current_scene_id,
    match run_loop results file m current_scene_id with
    | Returned m' =>
        _scene_cache m' = ∅
        /\ config_saves m' = S (config_saves m)
        /\ _scene_classes m' = _scene_classes m
    | Raised e => exists message, e = SceneError message
    | InScene _ m' =>
        config_saves m' = config_saves m
        /\ _scene_classes m' = _scene_classes m
    end.
Proof.
  induction results as [| [token file'] results IH]; intros file m current_scene_id.
  - destruct current_scene_id as [scene_id |]; cbn [run_loop]; [| now auto].
    repeat (case_decide; [now auto |]).
    pose proof (_get_scene_outcome file scene_id m) as Hget.
    destruct (_get_scene file scene_id m) as [[m' [scene |]] | e]; eauto.
    tauto.
  - destruct current_scene_id as [scene_id |]; cbn [run_loop]; [| now auto].
    repeat (case_decide; [now auto |]).
    pose proof (_get_scene_outcome file scene_id m) as Hget.
    destruct (_get_scene file scene_id m) as [[m' [scene |]] | e]; eauto.
    destruct Hget as [Hreg Hsaves].
    specialize (IH file' m' (_handle_transition scene_id token)).
    destruct (run_loop results file' m' _); [| exact IH |];
      rewrite <- Hreg, <- Hsaves; exact IH.
Qed.

(** X15. When the loop returns, the clean-up has been done, once: the scene
    cache is empty and the configuration has been saved exactly one more
    time than before; the scene registry is the one the loop started with. *)
Theorem run_returns_after_cleanup results file m current_scene_id m' :
  run_loop results file m current_scene_id = Returned m' ->
  _scene_cache m' = ∅
  /\ config_saves m' = S (config_saves m)
  /\ _scene_classes m' = _scene_classes m.
Proof.
  intros Hrun. pose proof (run_loop_outcome results file m current_scene_id) as Hout.
  now rewrite Hrun in Hout.
Qed.


(** X17. The loop ends as soon as a scene hands back no token, the empty
    token or "exit": [run] then returns after the clean-up, and the scene
    results that were still to come are not looked at. *)
Theorem run_stops_on_exit results file file' m m1 scene_id scene token :
  scene_id <> EmptyString -> scene_id <> "exit" ->
  _get_scene file scene_id m = Ok (m1, Some scene) ->
  token ∈ [None; Some EmptyString; Some "exit"] ->
  run_loop ((token, file') :: results) file m (Some scene_id)
  = Returned (_cleanup m1).
Proof.
  intros Hne Hexit Hget Htoken. cbn [run_loop].
  destruct (decide _) as [? | _]; [contradiction |].
  destruct (decide _) as [? | _]; [contradiction |].
  rewrite Hget.
  assert (Hnone : _handle_transition scene_id token = None).
  { rewrite !elem_of_cons, elem_of_nil in Htoken.
    destruct Htoken as [-> | [-> | [-> | []]]]; vm_compute; reflexivity. }
  rewrite Hnone. now destruct results.
Qed.

(** ** The save file *)

(** X18. A save file of at least three fields that parse is loaded as it
    stands: the held data become the parsed x, y and health, the level
    becomes the fourth field when there is one and is left alone otherwise,
    and fields after the fourth are ignored. *)
Theorem _load_saved_game_success text m field_x field_y field_health rest x y health :
  py_split (py_strip text) = field_x :: field_y :: field_health :: rest ->
  parse_float field_x = Some x ->
  parse_float field_y = Some y ->
  parse_int field_health = Some health ->
  _load_saved_game (Content text) m =
    Ok (match rest with
        | [] => set_saved_data (Some (x, y, health)) m
        | level :: _ =>
            set_current_level level (set_saved_data (Some (x, y, health)) m)
        end).
Proof.
  intros Hdata Hx Hy Hhealth. unfold _load_saved_game, read_saved_game.
  rewrite Hdata. cbn [length Nat.leb lookup list_lookup mbind option_bind].
  rewrite Hx, Hy, Hhealth. cbn [or_value_error mbind Result_bind].
  destruct rest as [| level rest]; reflexivity.
Qed.

(** X19. A save file that cannot be read or decoded, or in which one of the
    first three fields does not parse, clears the held data and changes
    nothing else: the level stays as it was even when the file has a level
    field. *)
Theorem _load_saved_game_malformed file m :
  file = Unreadable \/ file = Undecodable
  \/ (exists text,
        file = Content text
        /\ (3 <= length (py_split (py_strip text)))%nat
        /\ (py_split (py_strip text) !! 0%nat ≫= parse_float = None
            \/ py_split (py_strip text) !! 1%nat ≫= parse_float = None
            \/ py_split (py_strip text) !! 2%nat ≫= parse_int = None)) ->
  _load_saved_game file m = Ok (set_saved_data None m)
  /\ _current_level (set_saved_data None m) = _current_level m.
Proof.
  intros Hfile. split; [| reflexivity].
  destruct Hfile as [-> | [-> | (text & -> & Hlen & Hbad)]];
    [reflexivity | reflexivity |].
  unfold _load_saved_game, read_saved_game.
  rewrite (proj2 (Nat.leb_le _ _) Hlen).
  generalize dependent (py_split (py_strip text)). intros data _ Hbad.
  destruct (data !! 0%nat ≫= parse_float) as [x |]; [| reflexivity].
  destruct (data !! 1%nat ≫= parse_float) as [y |]; [| reflexivity].
  destruct (data !! 2%nat ≫= parse_int) as [health |]; [| reflexivity].
  destruct Hbad as [? | [? | ?]]; discriminate.
Qed.


(** ** The entry point *)

(** X21. [main] and the configuration.  When [main] returns it has called
    [pg.quit()], and it has saved the configuration twice after a run that
    returned (once in the clean-up of the scene manager, once in [finally]),
    once when the display or the run raised, and not at all when an earlier
    call raised, the configuration object not existing then.  It prints
    nothing exactly when the run returned. *)
Theorem main_saves_configuration is_game_error startup results file exit :
  main is_game_error startup results file = Some exit ->
  pg_quit_called exit = true
  /\ config_saved exit =
       match pg_init startup, pg_mixer_init startup, Config_new startup with
       | None, None, None =>
           match printed exit with [] => 2%nat | _ => 1%nat end
       | _, _, _ => 0%nat
       end
  /\ (printed exit = [] <->
      pg_init startup = None /\ pg_mixer_init startup = None
      /\ Config_new startup = None /\ create_display startup = None
      /\ exists m, run results file = Returned m).
Proof.
  unfold main, main_body.
  destruct startup as [[e1 |] [e2 |] [e3 |] [e4 |]]; cbn -[run];
    try (destruct (is_game_error _); intros [= <-]; cbn;
         repeat split; try reflexivity; try discriminate;
         intros (? & ? & ? & ? & ?); discriminate).
  pose proof (run_loop_outcome results file new_scene_manager (Some "menu"))
    as Hout.
  fold (run results file) in Hout.
  destruct (run results file) as [m | e | scene_id m]; cbn.
  - destruct Hout as (_ & -> & _).
    intros [= <-]; cbn. repeat split; eauto.
  - destruct (is_game_error e); intros [= <-]; cbn;
      repeat split; try reflexivity; try discriminate;
      intros (_ & _ & _ & _ & m & ?); discriminate.
  - discriminate.
Qed.

End FurtherSceneManagerProperties.

(** * The further properties at work *)

Section FurtherExamples.
#[local] Existing Instance SpecAnimation.ops.
#[local] Existing Instance spec_constants.
#[local] Existing Instance Decimal.builtins.
#[local] Existing Instance Decimal.scene_classes.

(** Evaluate the two sides of an equation, each on its own. *)
Ltac evaluate_sides :=
  match goal with
  | |- ?l = ?r =>
      let l' := eval vm_compute in l in
      let r' := eval vm_compute in r in
      change (l' = r')
  end.

(** ** The player *)

Lemma move_direction_in_range_witness :
  -1 <= _move_direction (handle_action PlayerAction.MOVE_LEFT true grounded_player) <= 1
  /\ _move_direction (update (1 # 60) grounded_player) = 0.
Proof.
  destruct (move_direction_in_range grounded_player) as (Haction & _ & Hupdate);
    [vm_compute; split; discriminate |].
  split; [apply Haction | apply Hupdate].
Defined.

Lemma opposite_direction_keys_witness :
  _move_direction
    (handle_action PlayerAction.MOVE_RIGHT false
       (handle_action PlayerAction.MOVE_RIGHT true
          (handle_action PlayerAction.MOVE_LEFT true grounded_player))) = 0
  /\ handle_action PlayerAction.MOVE_LEFT false grounded_player = grounded_player.
Proof.
  destruct (opposite_direction_keys grounded_player) as (_ & _ & Hstop & Hleft & _).
  split; [exact Hstop | apply Hleft; discriminate].
Defined.

Lemma coins_never_negative_witness :
  _coins (add_coins (-5) grounded_player) = 0
  /\ _coins (fst (spend_coins 3 (add_coins 10 grounded_player))) = 7
  /\ fst (spend_coins 3 grounded_player) = grounded_player.
Proof.
  destruct (coins_never_negative (-5) grounded_player) as (Hfloor & _).
  destruct (coins_never_negative 3 (add_coins 10 grounded_player))
    as (_ & _ & _ & Hspend & _).
  destruct (coins_never_negative 3 grounded_player) as (_ & _ & _ & _ & Hshort & _).
  split; [| split].
  - apply Z.le_antisymm; [vm_compute; discriminate | exact Hfloor].
  - rewrite Hspend; [reflexivity | vm_compute; discriminate].
  - apply Hshort. reflexivity.
Defined.

Lemma mana_stays_in_bounds_witness :
  0 <= _mana (add_mana 30 grounded_player) <= 100
  /\ snd (use_mana 40 grounded_player) = true
  /\ fst (use_mana 140 grounded_player) = grounded_player.
Proof.
  destruct (mana_stays_in_bounds 30 grounded_player) as (Hadd & _);
    [discriminate | vm_compute; split; discriminate |].
  destruct (mana_stays_in_bounds 40 grounded_player) as (_ & _ & Huse & _);
    [discriminate | vm_compute; split; discriminate |].
  destruct (mana_stays_in_bounds 140 grounded_player) as (_ & _ & _ & Hshort);
    [discriminate | vm_compute; split; discriminate |].
  split; [exact Hadd | split].
  - apply Huse. vm_compute. discriminate.
  - apply Hshort. reflexivity.
Defined.

Lemma mana_percentage_bounds_witness :
  (0 <= mana_percentage (fst (use_mana 40 grounded_player)))%Q
  /\ (mana_percentage (fst (use_mana 40 grounded_player)) <= 1)%Q
  /\ (mana_percentage grounded_player == 1)%Q.
Proof.
  destruct (mana_percentage_bounds (fst (use_mana 40 grounded_player)))
    as (_ & Hbounds & _).
  destruct (mana_percentage_bounds grounded_player) as (_ & _ & Hfull).
  destruct Hbounds as [Hlow Hhigh]; [vm_compute; split; discriminate |].
  split; [exact Hlow | split; [exact Hhigh |]].
  apply Hfull; reflexivity.
Defined.

Lemma update_resolves_locomotion_witness :
  _current_state
    (update (1 # 60)
       (handle_action PlayerAction.SPRINT true
          (handle_action PlayerAction.MOVE_RIGHT true grounded_player)))
  = PlayerState.RUN.
Proof.
  apply (update_resolves_locomotion (1 # 60)
           (handle_action PlayerAction.SPRINT true
              (handle_action PlayerAction.MOVE_RIGHT true grounded_player))).
  apply list_elem_of_here.
Defined.

Lemma death_state_witness :
  _current_state (update 1 (update 1 (_on_death grounded_player))) = PlayerState.DEATH
  /\ in_groups (update 1 (update 1 (_on_death grounded_player))) = false
  /\ handle_mouse_click 1 1000 0 (_on_death grounded_player) = _on_death grounded_player.
Proof.
  destruct (death_state (update 1 (_on_death grounded_player))) as (_ & _ & Hupdate & _);
    [vm_compute; reflexivity |].
  destruct (death_state (_on_death grounded_player)) as (Hclick & _);
    [reflexivity |].
  destruct (Hupdate 1%Q) as [Hstate Hgroups].
  split; [exact Hstate | split; [| apply Hclick]].
  rewrite Hgroups. vm_compute. reflexivity.
Defined.

Lemma only_block_changes_state_witness :
  _current_state (handle_action PlayerAction.MOVE_LEFT true attacking_player)
    = PlayerState.ATTACK_LIGHT_1
  /\ _current_state (handle_action PlayerAction.BLOCK false attacking_player)
     = PlayerState.ATTACK_LIGHT_1.
Proof.
  destruct (only_block_changes_state PlayerAction.MOVE_LEFT true attacking_player)
    as (Hmove & Hrelease & _).
  split.
  - destruct Hmove as [Hstate _]; [discriminate | exact Hstate].
  - destruct Hrelease as [Hstate _]; [discriminate | exact Hstate].
Defined.

Lemma update_gravity_witness :
  vy (velocity (update (1 # 60) grounded_player)) = 0%Q
  /\ vy (acceleration (update (1 # 60) fresh_player)) = (GRAVITY * 60 * 60)%Q.
Proof.
  destruct (update_gravity (1 # 60) grounded_player) as (Hground & _).
  destruct (update_gravity (1 # 60) fresh_player) as (_ & Hair & _).
  split.
  - destruct Hground as (Hv & _); [reflexivity | reflexivity | exact Hv].
  - destruct Hair as (_ & Ha & _); [reflexivity | exact Ha].
Defined.


Lemma _load_animation_frames_never_empty_witness :
  _load_animation_frames None = [placeholder]
  /\ _load_animation_frames (Some [("b.png", true); ("c.png", false); ("a.png", true)])
     = [scaled_frame "a.png"; scaled_frame "b.png"].
Proof.
  destruct (_load_animation_frames_never_empty None) as (_ & Hmissing & _).
  split; [apply Hmissing; reflexivity |].
  destruct (_load_animation_frames_never_empty
              (Some [("b.png", true); ("c.png", false); ("a.png", true)]))
    as (_ & _ & Hfiles).
  destruct (Hfiles _ eq_refl) as (sorted_files & _ & _ & _ & _).
  vm_compute. reflexivity.
Defined.

(** ** The scene manager *)


Lemma run_returns_after_cleanup_witness :
  exists m,
    run [(Some "settings", Missing); (Some "back", Missing); (Some "exit", Missing)]
        Missing = Returned m
    /\ _scene_cache m = ∅ /\ config_saves m = 1%nat.
Proof.
  exists (_cleanup
            (set_scene_cache
               (<["settings" := Some (mkScene SettingsScene no_arguments)]>
                  (<["menu" := Some (mkScene MenuScene no_arguments)]> ∅))
               new_scene_manager)).
  assert (Hrun : run [(Some "settings", Missing); (Some "back", Missing);
                      (Some "exit", Missing)] Missing
                 = Returned
                     (_cleanup
                        (set_scene_cache
                           (<["settings" := Some (mkScene SettingsScene no_arguments)]>
                              (<["menu" := Some (mkScene MenuScene no_arguments)]> ∅))
                           new_scene_manager)))
    by (evaluate_sides; reflexivity).
  split; [exact Hrun |].
  destruct (run_returns_after_cleanup _ _ _ _ _ Hrun) as (Hcache & Hsaves & _).
  split; [exact Hcache | exact Hsaves].
Defined.


Lemma run_stops_on_exit_witness :
  run_loop [(Some "exit", Missing); (Some "game", saved_game)] Missing
    new_scene_manager (Some "menu")
  = Returned (_cleanup menu_visited).
Proof.
  apply (run_stops_on_exit _ Missing Missing new_scene_manager menu_visited "menu"
           (mkScene MenuScene no_arguments) (Some "exit")).
  - discriminate.
  - discriminate.
  - evaluate_sides. reflexivity.
  - rewrite !elem_of_cons. auto.
Defined.

Lemma _load_saved_game_success_witness :
  _load_saved_game saved_game new_scene_manager = Ok loaded_manager
  /\ _load_saved_game (Content "  12.5 40.0 80
") loaded_manager
     = Ok (set_saved_data (Some (12.5%Q, 40.0%Q, 80)) loaded_manager).
Proof.
  split.
  - apply (_load_saved_game_success (H := Decimal.builtins)
             "12.5 40.0 80 cave" new_scene_manager
             "12.5" "40.0" "80" ["cave"] 12.5%Q 40.0%Q 80); reflexivity.
  - apply (_load_saved_game_success (H := Decimal.builtins) _ loaded_manager
             "12.5" "40.0" "80" [] 12.5%Q 40.0%Q 80); reflexivity.
Defined.

Lemma _load_saved_game_malformed_witness :
  _load_saved_game (Content "12.5 forty 80 cave") new_scene_manager
  = Ok (set_saved_data None new_scene_manager).
Proof.
  apply (_load_saved_game_malformed (Content "12.5 forty 80 cave") new_scene_manager).
  right. right. exists "12.5 forty 80 cave"%string.
  split; [reflexivity |]. split; [vm_compute; lia |].
  right. left. reflexivity.
Defined.


Lemma main_saves_configuration_witness :
  main (fun e => match e with SceneError _ => true | _ => false end)
       (mkStartup None None None None)
       [(Some "exit", Missing)] Missing
  = Some {| printed := []; config_saved := 2; pg_quit_called := true |}
  /\ config_saved {| printed := []; config_saved := 2; pg_quit_called := true |}
     = 2%nat.
Proof.
  assert (Hmain : main (fun e => match e with SceneError _ => true | _ => false end)
                    (mkStartup None None None None)
                    [(Some "exit", Missing)] Missing
                  = Some {| printed := []; config_saved := 2; pg_quit_called := true |})
    by (vm_compute; reflexivity).
  split; [exact Hmain |].
  destruct (main_saves_configuration _ _ _ _ _ Hmain) as (_ & Hsaves & _).
  exact Hsaves.
Defined.

(** A failure of the display: one save, by [finally]; a failure of
    [Config()]: none. *)
Example main_after_failures :
  main (fun _ => false) (mkStartup None None None (Some OtherError)) [] Missing
  = Some {| printed := [unexpected_error_line OtherError; traceback_lines OtherError];
            config_saved := 1; pg_quit_called := true |}
  /\ main (fun _ => false) (mkStartup None None (Some OtherError) None) [] Missing
     = Some {| printed := [unexpected_error_line OtherError; traceback_lines OtherError];
               config_saved := 0; pg_quit_called := true |}.
Proof. split; reflexivity. Qed.

End FurtherExamples.
